(** * Interview Preparation Coach: the conversation-turn pipeline of [app.py]

    A shallow embedding of the parts of [app.py] that carry behaviour:
    the prompt catalogue [INTERVIEW_PROMPTS] with [get_system_prompt], the
    history formatter [format_conversation_history], the reply splitter
    [parse_response_with_score], the start-up guard around [initialize_llm],
    and the page script that mutates [st.session_state].

    Python values are modelled as follows.
    - A [str] is the list of its Unicode code points ([list N]); literals of
      the source are written [str "..."].
    - A message dict [{"role": r, "content": c}] is the record [message].
    - [st.session_state] is the record [session_state]; Python's unbounded
      [int] is [Z].
    - An exception is a value of [exn]; fallible code returns [result].
    - What the page does to the outside world (widgets drawn, the request
      handed to the model client) is a chronological list of [event]s. *)

From Stdlib Require Import NArith ZArith Ascii String List Lia.
From stdpp Require Import gmap list.
Import ListNotations.

Local Open Scope list_scope.

(** ** Python strings *)

Abbreviation pystr := (list N).

(** A literal of the source (all of them are ASCII). *)
Definition str (s : string) : pystr :=
  map N_of_ascii (list_ascii_of_string s).

Module Py.

(** [str.isspace] on one code point: the characters [str.strip()] removes. *)
Definition isspace (c : N) : bool :=
  ((9 <=? c) && (c <=? 13)       (* \t \n \v \f \r *)
   || (28 <=? c) && (c <=? 32)   (* FS GS RS US and the space *)
   || (c =? 133) || (c =? 160)   (* NEL, no-break space *)
   || (c =? 5760)                (* U+1680 *)
   || (8192 <=? c) && (c <=? 8202)   (* U+2000 .. U+200A *)
   || (c =? 8232) || (c =? 8233) (* line and paragraph separators *)
   || (c =? 8239) || (c =? 8287) || (c =? 12288))%N.

Fixpoint lstrip (s : pystr) : pystr :=
  match s with
  | c :: s' => if isspace c then lstrip s' else s
  | [] => []
  end.

Definition rstrip (s : pystr) : pystr := rev (lstrip (rev s)).

(** [s.strip()] *)
Definition strip (s : pystr) : pystr := rstrip (lstrip s).

(** [s.startswith(sub)] *)
Fixpoint startswith (sub s : pystr) : bool :=
  match sub, s with
  | [], _ => true
  | _ :: _, [] => false
  | a :: sub', c :: s' => (a =? c)%N && startswith sub' s'
  end.

(** [s.find(sub)]: the index of the leftmost occurrence, [None] for -1. *)
Fixpoint find (sub s : pystr) : option nat :=
  if startswith sub s then Some 0
  else match s with
       | [] => None
       | _ :: s' => option_map S (find sub s')
       end.

(** [sub in s] *)
Fixpoint contains (sub s : pystr) : bool :=
  startswith sub s
  || match s with
     | [] => false
     | _ :: s' => contains sub s'
     end.

End Py.

(** ** Exceptions *)

(** The exceptions the modelled code can meet; all are subclasses of
    [Exception].  [ClientError] stands for whatever the model client or its
    constructor raises (network, authentication, rate limit, bad request). *)
Inductive exn : Type :=
| KeyError (key : pystr)
| ValueError (msg : pystr)
| IndexError
| ClientError (detail : pystr).

Inductive result (A : Type) : Type :=
| Ok (a : A)
| Raise (e : exn).
Arguments Ok {A} a.
Arguments Raise {A} e.

#[global] Instance result_ret : MRet result := fun A a => Ok a.

#[global] Instance result_bind : MBind result := fun A B k r =>
  match r with
  | Ok a => k a
  | Raise e => Raise e
  end.

Module PyList.

(** [l[i]] for a non-negative literal index. *)
Definition getitem {A} (l : list A) (i : nat) : result A :=
  match nth_error l i with
  | Some a => Ok a
  | None => Raise IndexError
  end.

(** [l[:-1]] *)
Definition all_but_last {A} (l : list A) : list A :=
  firstn (length l - 1) l.

End PyList.

Module PySplit.
Import Py.

(** The loop of [s.split(sep)] for a non-empty [sep]: cut at the leftmost
    occurrence and go on behind it.  Every round consumes at least one
    character, so [length s] rounds are always enough (see [split_step]). *)
Fixpoint split_loop (rounds : nat) (sep s : pystr) : list pystr :=
  match rounds with
  | O => [s]
  | S rounds' =>
      match find sep s with
      | None => [s]
      | Some i => firstn i s :: split_loop rounds' sep (skipn (i + length sep) s)
      end
  end.

(** [s.split(sep)]; Python raises [ValueError] on the empty separator. *)
Definition split (sep s : pystr) : result (list pystr) :=
  match sep with
  | [] => Raise (ValueError (str "empty separator"))
  | _ :: _ => Ok (split_loop (length s) sep s)
  end.

End PySplit.

(** ** The prompt catalogue (app.py, INTERVIEW_PROMPTS) *)

(** The items of the dict literal, in the order of the source. *)
Definition INTERVIEW_PROMPTS_items : list (pystr * pystr) :=
  [
  (str "General",
   str "You are a senior technical interviewer with 15+ years of experience at leading technology companies including Google, Meta, Microsoft, and Amazon.

Your responsibilities:
1. Ask relevant, thoughtful technical interview questions
2. Evaluate candidate responses with fairness and constructiveness
3. Provide specific, actionable feedback for improvement
4. Probe deeper with follow-up questions to assess problem-solving approach
5. Recommend resources for skill development

Evaluation Criteria:
- Technical accuracy and depth of understanding
- Communication clarity and articulation
- Problem-solving methodology and reasoning
- Consideration of edge cases and scalability
- Time and space complexity awareness

Guidelines:
- Maintain objectivity and provide balanced assessment
- Focus on the reasoning process, not just final answers
- Explain the rationale behind your feedback with specific examples
- Request clarification when responses lack specificity
- Provide scores on a 1-10 scale with clear reasoning

Tone: Professional, supportive, and focused on candidate development.");

  (str "Frontend",
   str "You are a senior frontend engineer interviewer specializing in React, JavaScript, and modern web technologies.

Your responsibilities:
1. Ask targeted questions about React fundamentals, component architecture, and state management
2. Assess knowledge of JavaScript ES6+, async programming, and browser APIs
3. Evaluate understanding of performance optimization, accessibility, and responsive design
4. Provide specific feedback on code quality and best practices

Evaluation Areas:
- JavaScript fundamentals and ES6+ features
- React component lifecycle, hooks, and state management
- CSS and responsive design principles
- Performance optimization and browser rendering
- Testing strategies and debugging skills

Provide detailed, constructive feedback with code examples when relevant.");

  (str "Backend",
   str "You are a senior backend engineer interviewer with expertise in server-side architecture, databases, and API design.

Your responsibilities:
1. Ask questions about system design, database optimization, and API development
2. Assess knowledge of scaling, caching, security, and deployment
3. Evaluate understanding of different architectural patterns and their trade-offs
4. Provide feedback on code quality, error handling, and monitoring

Evaluation Areas:
- RESTful API design and best practices
- Database schema design and query optimization
- Authentication, authorization, and security
- Caching strategies and performance optimization
- Deployment, monitoring, and observability

Provide structured feedback with explanations of industry best practices.");

  (str "System Design",
   str "You are a principal engineer specializing in system design and architectural decisions.

Your responsibilities:
1. Evaluate candidates' ability to design scalable, reliable systems
2. Assess trade-offs between different architectural approaches
3. Evaluate capacity planning and bottleneck identification
4. Provide feedback on communication and problem-solving methodology

Evaluation Areas:
- Requirements gathering and clarification
- High-level architecture design
- Database and storage technology selection
- Scalability considerations and load balancing
- Reliability, fault tolerance, and disaster recovery
- Cost optimization and trade-offs

Provide detailed analysis of design decisions with industry context.");

  (str "Data Structures",
   str "You are a senior engineer specializing in algorithms and data structures.

Your responsibilities:
1. Evaluate problem-solving approach and algorithmic thinking
2. Assess knowledge of fundamental and advanced data structures
3. Evaluate code quality, complexity analysis, and optimization
4. Provide feedback on edge case handling and testing

Evaluation Areas:
- Problem comprehension and clarification
- Algorithm selection and optimization
- Time and space complexity analysis
- Code correctness and edge case handling
- Implementation quality and best practices

Provide constructive feedback with complexity analysis and optimization suggestions.");

  (str "Behavioral",
   str "You are an experienced senior engineering manager and interviewer specializing in leadership and team dynamics.

Your responsibilities:
1. Evaluate communication skills and conflict resolution
2. Assess leadership potential and team collaboration
3. Evaluate problem-solving and decision-making under pressure
4. Provide feedback on professional development areas

Evaluation Areas:
- Communication clarity and listening skills
- Teamwork and collaboration
- Leadership and mentorship
- Problem-solving under pressure
- Conflict resolution and negotiation
- Adaptability and growth mindset

Provide balanced, supportive feedback focused on professional growth.")
  ].

Definition INTERVIEW_PROMPTS : gmap pystr pystr :=
  list_to_map INTERVIEW_PROMPTS_items.

Module PyDict.

(** [d[k]] *)
Definition getitem (d : gmap pystr pystr) (k : pystr) : result pystr :=
  match d !! k with
  | Some v => Ok v
  | None => Raise (KeyError k)
  end.

(** [d.get(k, dflt)] *)
Definition get (d : gmap pystr pystr) (k dflt : pystr) : pystr :=
  match d !! k with
  | Some v => v
  | None => dflt
  end.

End PyDict.

(** [INTERVIEW_PROMPTS.get(interview_type, INTERVIEW_PROMPTS["General"])]:
    the default is an argument, so it is looked up before [get] runs. *)
Definition get_system_prompt (interview_type : pystr) : result pystr :=
  general ← PyDict.getitem INTERVIEW_PROMPTS (str "General");
  mret (PyDict.get INTERVIEW_PROMPTS interview_type general).

(** ** Messages and the history formatter *)

Inductive Role : Type := System | User | Assistant.

Record message : Type := Message { role : Role; content : pystr }.

(** The [for] loop of [format_conversation_history]: every message is
    rebuilt from its ["role"] and ["content"] and appended to [formatted]. *)
Definition format_conversation_history (messages : list message) : list message :=
  fold_left
    (fun formatted msg =>
       formatted ++ [ {| role := role msg; content := content msg |} ])
    messages [].

(** ** The reply splitter *)

Definition parse_response_with_score (response : pystr) : result (pystr * pystr) :=
  if Py.contains (str "Score:") response || Py.contains (str "Rating:") response
  then
    parts ← PySplit.split (str "---") response;
    if (1 <? length parts)%nat
    then
      p0 ← PyList.getitem parts 0;
      p1 ← PyList.getitem parts 1;
      mret (Py.strip p0, Py.strip p1)
    else mret (response, [])
  else mret (response, []).

(** ** Session state *)

Record session_state : Type := SessionState {
  messages : list message;
  interview_type : pystr;
  message_count : Z
}.

(** The state the three [if ... not in st.session_state] blocks create. *)
Definition initial_session : session_state :=
  {| messages := []; interview_type := str "General"; message_count := 0 |}.

(** [st.session_state.interview_type = interview_type] *)
Definition set_interview_type (t : pystr) (s : session_state) : session_state :=
  {| messages := messages s; interview_type := t;
     message_count := message_count s |}.

(** Lines 443-447: the user message is appended and the counter bumped. *)
Definition append_user (user_input : pystr) (s : session_state) : session_state :=
  {| messages := messages s ++ [ {| role := User; content := user_input |} ];
     interview_type := interview_type s;
     message_count := message_count s + 1 |}.

(** Lines 489-492: the reply is appended; the counter is not touched. *)
Definition append_assistant (output : pystr) (s : session_state) : session_state :=
  {| messages := messages s ++ [ {| role := Assistant; content := output |} ];
     interview_type := interview_type s;
     message_count := message_count s |}.

(** The body of the "Clear History" button (lines 351-353). *)
Definition clear_history (s : session_state) : session_state :=
  {| messages := []; interview_type := interview_type s; message_count := 0 |}.

(** The body of the "New Session" button (lines 357-359). *)
Definition new_session (s : session_state) : session_state :=
  {| messages := []; interview_type := interview_type s; message_count := 0 |}.

(** Lines 461-467: the request handed to [llm.invoke], built after the user
    message has been appended to [st.session_state.messages]. *)
Definition build_messages (system_prompt : pystr) (s : session_state) : list message :=
  [ {| role := System; content := system_prompt |} ]
  ++ format_conversation_history (PyList.all_but_last (messages s)).

(** ** The page script *)

(** What one run of the script does to the outside world.  Static layout
    (header, style sheet, sidebar texts, footer) and the operational log are
    left out: they neither read nor write the session. *)
Inductive event : Type :=
| ChatMessage (r : Role)            (* with st.chat_message(r): *)
| Markdown (body : pystr)           (* st.markdown(body) *)
| Error (body : pystr)              (* st.error(body) *)
| Info (body : pystr)               (* st.info(body) *)
| ChatInput                         (* st.chat_input(...) is reached *)
| Invoke (request : list message).  (* llm.invoke(request) *)

(** How a run of the script, or of a part of it, ends. *)
Inductive outcome (A : Type) : Type :=
| Done (a : A)
| Raised (e : exn)      (* an exception propagates *)
| Stopped               (* st.stop(): the run ends here *)
| Rerun.                (* st.rerun(): the run ends here and a new one starts *)
Arguments Done {A} a.
Arguments Raised {A} e.
Arguments Stopped {A}.
Arguments Rerun {A}.

(** A piece of the script: it reads and writes [st.session_state] and adds
    to the events of the run. *)
Definition script (A : Type) : Type :=
  session_state * list event -> outcome A * (session_state * list event).

#[global] Instance script_ret : MRet script := fun A a w => (Done a, w).

#[global] Instance script_bind : MBind script := fun A B k m w =>
  match m w with
  | (Done a, w') => k a w'
  | (Raised e, w') => (Raised e, w')
  | (Stopped, w') => (Stopped, w')
  | (Rerun, w') => (Rerun, w')
  end.

Module St.

Definition lift {A} (r : result A) : script A := fun w =>
  match r with
  | Ok a => (Done a, w)
  | Raise e => (Raised e, w)
  end.

Definition emit (e : event) : script unit := fun w =>
  (Done tt, (fst w, snd w ++ [e])).

Definition session : script session_state := fun w => (Done (fst w), w).

Definition update (f : session_state -> session_state) : script unit := fun w =>
  (Done tt, (f (fst w), snd w)).

Definition stop {A} : script A := fun w => (Stopped, w).

Definition rerun {A} : script A := fun w => (Rerun, w).

(** [try: body / except Exception as e: handler]: [st.stop()] and
    [st.rerun()] are not caught. *)
Definition try_except {A} (body : script A) (handler : exn -> script A) : script A :=
  fun w =>
    match body w with
    | (Raised e, w') => handler e w'
    | r => r
    end.

Definition when (b : bool) (body : script unit) : script unit :=
  if b then body else mret tt.

Fixpoint for_each {X} (l : list X) (body : X -> script unit) : script unit :=
  match l with
  | [] => mret tt
  | x :: l' => body x ;; for_each l' body
  end.

End St.

(** Python's truth value of a [str]. *)
Definition truthy (s : pystr) : bool :=
  match s with
  | [] => false
  | _ :: _ => true
  end.

(** The model client: [llm.invoke(messages).content], or the exception the
    call raises.  A run of the script calls it at most once. *)
Record ChatModel : Type := { invoke : list message -> result pystr }.

(** What the process finds outside itself: [os.getenv("GROQ_API_KEY")] and
    the constructor [ChatGroq(model=..., api_key=..., ...)], whose other
    arguments are constants. *)
Record environment : Type := {
  GROQ_API_KEY : option pystr;
  ChatGroq : pystr -> result ChatModel
}.

(** What the widgets return in one run of the script. *)
Record widgets : Type := {
  selectbox : pystr;                 (* st.selectbox("Interview Type", ...) *)
  clear_history_clicked : bool;      (* st.button("Clear History") *)
  new_session_clicked : bool;        (* st.button("New Session") *)
  chat_input : option pystr          (* st.chat_input(...) *)
}.

(** [st.cache_resource] keeps the first result for later runs; with a fixed
    environment that is the value computed here. *)
Definition initialize_llm (env : environment) : option ChatModel :=
  match GROQ_API_KEY env with
  | None => None
  | Some api_key =>
      if truthy api_key
      then match ChatGroq env api_key with
           | Ok llm => Some llm
           | Raise _ => None
           end
      else None
  end.

Definition CONFIGURATION_ERROR : pystr :=
  str "Configuration Error: Cannot initialize language model. Please ensure GROQ_API_KEY is properly set in your .env file.".

Definition SETUP_INSTRUCTIONS : pystr :=
  str "Setup instructions: Visit https://console.groq.com to create your API key.".

Definition error_message : pystr :=
  str "An error occurred while processing your request. Please verify your API key is valid and try again.".

Definition TROUBLESHOOTING : pystr :=
  str "Troubleshooting:
1. Verify GROQ_API_KEY in your .env file
2. Check your internet connection
3. Ensure your API key is still valid
4. Try with a shorter input".

(** [f"<div class='feedback-score'>{score_content}</div>"] *)
Definition feedback_score (score_content : pystr) : pystr :=
  str "<div class='feedback-score'>" ++ score_content ++ str "</div>".

(** [llm.invoke(messages)] followed by [response.content] *)
Definition llm_invoke (llm : ChatModel) (request : list message) : script pystr :=
  St.emit (Invoke request) ;;
  St.lift (invoke llm request).

(** The body of [if user_input := st.chat_input(...)] (lines 442-507). *)
Definition chat_turn (llm : ChatModel) (interview_type user_input : pystr) : script unit :=
  St.update (append_user user_input) ;;
  St.emit (ChatMessage User) ;;
  St.emit (Markdown user_input) ;;
  St.emit (ChatMessage Assistant) ;;
  St.try_except
    (system_prompt ← St.lift (get_system_prompt interview_type);
     s ← St.session;
     output ← llm_invoke llm (build_messages system_prompt s);
     parsed ← St.lift (parse_response_with_score output);
     St.emit (Markdown (fst parsed)) ;;
     St.when (truthy (snd parsed)) (St.emit (Markdown (feedback_score (snd parsed)))) ;;
     St.update (append_assistant output))
    (fun e =>
       St.emit (Error error_message) ;;
       St.emit (Info TROUBLESHOOTING)).

(** [for message in st.session_state.messages: ...] (lines 431-433) *)
Definition display_chat_history : script unit :=
  s ← St.session;
  St.for_each (messages s)
    (fun message =>
       St.emit (ChatMessage (role message)) ;;
       St.emit (Markdown (content message))).

(** One run of the script, from the sidebar to the end of the chat block. *)
Definition run_page (env : environment) (w : widgets) : script unit :=
  let interview_type := selectbox w in
  St.update (set_interview_type interview_type) ;;
  St.when (clear_history_clicked w) (St.update clear_history ;; St.rerun) ;;
  St.when (new_session_clicked w) (St.update new_session ;; St.rerun) ;;
  match initialize_llm env with
  | None =>
      St.emit (Error CONFIGURATION_ERROR) ;;
      St.emit (Info SETUP_INSTRUCTIONS) ;;
      St.stop
  | Some llm =>
      display_chat_history ;;
      St.emit ChatInput ;;
      match chat_input w with
      | Some user_input =>
          if truthy user_input
          then chat_turn llm interview_type user_input
          else mret tt
      | None => mret tt
      end
  end.

(** The options of the "Interview Type" select box (lines 332-339). *)
Definition INTERVIEW_TYPE_OPTIONS : list pystr :=
  [ str "General"; str "Frontend"; str "Backend";
    str "System Design"; str "Data Structures"; str "Behavioral" ].

(** ** Vocabulary of the specification *)

Module Spec.

(** [s.partition(sep)[0]]: the text before the leftmost [sep]; all of [s]
    when [sep] does not occur. *)
Definition before_first (sep s : pystr) : pystr :=
  match Py.find sep s with
  | Some i => firstn i s
  | None => s
  end.

(** [s.partition(sep)[2]]: the text behind the leftmost [sep]; empty when
    [sep] does not occur. *)
Definition after_first (sep s : pystr) : pystr :=
  match Py.find sep s with
  | Some i => skipn (i + length sep) s
  | None => []
  end.

(** The reply carries one of the two trigger words. *)
Definition has_trigger (response : pystr) : bool :=
  Py.contains (str "Score:") response || Py.contains (str "Rating:") response.

Definition DELIMITER : pystr := str "---".

(** The two writes to the history, as operations on a session. *)
Inductive session_op : Type :=
| AppendUser (text : pystr)
| AppendAssistant (text : pystr).

Definition apply_op (s : session_state) (op : session_op) : session_state :=
  match op with
  | AppendUser text => append_user text s
  | AppendAssistant text => append_assistant text s
  end.

Definition apply_ops (ops : list session_op) (s : session_state) : session_state :=
  fold_left apply_op ops s.

Definition is_user_op (op : session_op) : bool :=
  match op with
  | AppendUser _ => true
  | AppendAssistant _ => false
  end.

(** k: how many of the operations are [AppendUser]. *)
Definition user_ops (ops : list session_op) : nat :=
  length (List.filter is_user_op ops).

(** m: how many of the operations are [AppendAssistant]. *)
Definition assistant_ops (ops : list session_op) : nat :=
  length (List.filter (fun op => negb (is_user_op op)) ops).

(** The requests a run handed to the model client, in order. *)
Fixpoint invocations (events : list event) : list (list message) :=
  match events with
  | [] => []
  | Invoke request :: events' => request :: invocations events'
  | _ :: events' => invocations events'
  end.

(** What [display_chat_history] draws for a history. *)
Definition transcript (history : list message) : list event :=
  concat (map (fun message =>
                 [ ChatMessage (role message); Markdown (content message) ])
              history).

(** Letter case on the ASCII letters, which is all the category names use. *)
Definition lower (c : N) : N :=
  if ((65 <=? c) && (c <=? 90))%N then (c + 32)%N else c.

(** Two strings that differ at most in the case of their letters. *)
Definition same_up_to_case (a b : pystr) : Prop :=
  map lower a = map lower b.

End Spec.

(** ** Concrete inputs *)

Module Scenario.

(** Scenario A: the first question of a Backend session. *)
Definition question_a : pystr := str "Explain database indexing.".

(** Scenario B: a reply with one delimiter. *)
Definition reply_b : pystr :=
  str "Good answer overall.
---
Score: 7/10, Rating: Strong".

(** Scenario C: a reply without trigger words. *)
Definition reply_c : pystr := str "Try again with more detail.".

(** A reply that uses the delimiter twice. *)
Definition reply_two_rules : pystr :=
  str "Score: 8/10
---
Clear structure.
---
Next question: what is a covering index?".

(** A reply with blanks around the two halves. *)
Definition reply_padded : pystr := str "  Well done.  ---  Score: 9/10  ".

(** A client that answers every request with the same text. *)
Definition answering (output : pystr) : ChatModel :=
  {| invoke := fun _ => Ok output |}.

(** A client whose every call fails. *)
Definition failing : ChatModel :=
  {| invoke := fun _ => Raise (ClientError (str "rate limit reached")) |}.

(** No key in the environment. *)
Definition env_without_key : environment :=
  {| GROQ_API_KEY := None; ChatGroq := fun _ => Ok (answering reply_b) |}.

(** A key is there, but the client cannot be built with it. *)
Definition env_bad_client : environment :=
  {| GROQ_API_KEY := Some (str "gsk_test");
     ChatGroq := fun _ => Raise (ValueError (str "invalid api key")) |}.

(** A key is there and the client answers [reply_b] to everything. *)
Definition env_with_key : environment :=
  {| GROQ_API_KEY := Some (str "gsk_test");
     ChatGroq := fun _ => Ok (answering reply_b) |}.

(** The user submits [text]; no button is pressed. *)
Definition submit (category text : pystr) : widgets :=
  {| selectbox := category; clear_history_clicked := false;
     new_session_clicked := false; chat_input := Some text |}.

(** The user presses "Clear History". *)
Definition press_clear (category : pystr) : widgets :=
  {| selectbox := category; clear_history_clicked := true;
     new_session_clicked := false; chat_input := None |}.

(** A session with one finished exchange. *)
Definition one_exchange : session_state :=
  append_assistant reply_b (append_user question_a initial_session).

(** Scenario D: two submissions in a row, each in a run of its own. *)
Definition first_run : outcome unit * (session_state * list event) :=
  run_page env_with_key (submit (str "General") question_a) (initial_session, []).

Definition second_run : outcome unit * (session_state * list event) :=
  run_page env_with_key (submit (str "General") reply_c) (first_run.2.1, []).

End Scenario.

(** ** Shapes of replies, histories and runs *)

Module Shape.

(** A string of whitespace only. *)
Definition blank (s : pystr) : Prop :=
  Forall (fun c => Py.isspace c = true) s.

(** A string that neither begins nor ends with whitespace. *)
Definition stripped (s : pystr) : Prop :=
  (forall c, head s = Some c -> Py.isspace c = false)
  /\ (forall c, last s = Some c -> Py.isspace c = false).

Definition is_user (m : message) : bool :=
  match role m with
  | User => true
  | _ => false
  end.

(** How many entries of a history are user messages. *)
Definition user_turns (history : list message) : nat :=
  length (List.filter is_user history).

(** A history made of exchanges: a user message alone (its call failed) or
    a user message directly followed by the reply to it. *)
Inductive exchanges : list message -> Prop :=
| NoExchange : exchanges []
| Unanswered (history : list message) (user_input : pystr) :
    exchanges history ->
    exchanges (history ++ [ {| role := User; content := user_input |} ])
| Answered (history : list message) (user_input output : pystr) :
    exchanges history ->
    exchanges (history ++ [ {| role := User; content := user_input |};
                            {| role := Assistant; content := output |} ]).

(** The five ways a run of the script can go, with the session and the
    events each leaves behind. *)
Inductive page_result (env : environment) (w : widgets) (s : session_state)
          (events : list event) :
  outcome unit * (session_state * list event) -> Prop :=
| ResetRun :
    clear_history_clicked w = true \/ new_session_clicked w = true ->
    page_result env w s events
      (Rerun,
       ({| messages := []; interview_type := selectbox w; message_count := 0 |},
        events))
| BlockedRun :
    clear_history_clicked w = false -> new_session_clicked w = false ->
    initialize_llm env = None ->
    page_result env w s events
      (Stopped,
       (set_interview_type (selectbox w) s,
        events ++ [ Error CONFIGURATION_ERROR; Info SETUP_INSTRUCTIONS ]))
| IdleRun (llm : ChatModel) :
    clear_history_clicked w = false -> new_session_clicked w = false ->
    initialize_llm env = Some llm ->
    chat_input w = None \/ chat_input w = Some [] ->
    page_result env w s events
      (Done tt,
       (set_interview_type (selectbox w) s,
        events ++ Spec.transcript (messages s) ++ [ChatInput]))
| FailedTurn (llm : ChatModel) (user_input p : pystr) (e : exn) :
    clear_history_clicked w = false -> new_session_clicked w = false ->
    initialize_llm env = Some llm ->
    chat_input w = Some user_input -> user_input <> [] ->
    get_system_prompt (selectbox w) = Ok p ->
    invoke llm ({| role := System; content := p |} :: messages s) = Raise e ->
    page_result env w s events
      (Done tt,
       (append_user user_input (set_interview_type (selectbox w) s),
        events ++ Spec.transcript (messages s)
               ++ [ ChatInput;
                    ChatMessage User; Markdown user_input; ChatMessage Assistant;
                    Invoke ({| role := System; content := p |} :: messages s);
                    Error error_message; Info TROUBLESHOOTING ]))
| AnsweredTurn (llm : ChatModel)
               (user_input p output main_content score_content : pystr) :
    clear_history_clicked w = false -> new_session_clicked w = false ->
    initialize_llm env = Some llm ->
    chat_input w = Some user_input -> user_input <> [] ->
    get_system_prompt (selectbox w) = Ok p ->
    invoke llm ({| role := System; content := p |} :: messages s) = Ok output ->
    parse_response_with_score output = Ok (main_content, score_content) ->
    page_result env w s events
      (Done tt,
       (append_assistant output
          (append_user user_input (set_interview_type (selectbox w) s)),
        events ++ Spec.transcript (messages s)
               ++ [ ChatInput;
                    ChatMessage User; Markdown user_input; ChatMessage Assistant;
                    Invoke ({| role := System; content := p |} :: messages s);
                    Markdown main_content ]
               ++ (if truthy score_content
                   then [ Markdown (feedback_score score_content) ]
                   else []))).

(** The session one run leaves for the next one. *)
Definition next_session (env : environment) (w : widgets)
           (s : session_state) : session_state :=
  (run_page env w (s, [])).2.1.

(** What one run draws and calls. *)
Definition run_events (env : environment) (w : widgets)
           (s : session_state) : list event :=
  (run_page env w (s, [])).2.2.

(** The session after a sequence of runs, each with what the environment
    and the widgets gave it. *)
Definition run_pages (runs : list (environment * widgets))
           (s : session_state) : session_state :=
  fold_left (fun s run => next_session run.1 run.2 s) runs s.

End Shape.

(** ** More concrete inputs *)

Module Cases.

(** A client that fails when the request holds the system prompt alone and
    answers [Scenario.reply_b] otherwise. *)
Definition moody : ChatModel :=
  {| invoke := fun request =>
       match request with
       | [_] => Raise (ClientError (str "timeout"))
       | _ => Ok Scenario.reply_b
       end |}.

Definition env_moody : environment :=
  {| GROQ_API_KEY := Some (str "gsk_test"); ChatGroq := fun _ => Ok moody |}.

(** Nothing is pressed and nothing submitted. *)
Definition idle (category : pystr) : widgets :=
  {| selectbox := category; clear_history_clicked := false;
     new_session_clicked := false; chat_input := None |}.

(** The input box returns the empty string. *)
Definition empty_submission (category : pystr) : widgets :=
  {| selectbox := category; clear_history_clicked := false;
     new_session_clicked := false; chat_input := Some [] |}.

(** "New Session" is pressed while a text is submitted. *)
Definition press_new_while_typing (category text : pystr) : widgets :=
  {| selectbox := category; clear_history_clicked := false;
     new_session_clicked := true; chat_input := Some text |}.

(** A short session: a question whose call fails, an idle run, a second
    question, a reset, a third question. *)
Definition busy_session : list (environment * widgets) :=
  [ (env_moody, Scenario.submit (str "Backend") Scenario.question_a);
    (env_moody, idle (str "Frontend"));
    (env_moody, Scenario.submit (str "Frontend") Scenario.reply_c);
    (Scenario.env_with_key, Scenario.press_clear (str "General"));
    (Scenario.env_with_key, Scenario.submit (str "General") Scenario.question_a) ].

End Cases.

(** * Properties *)

(** ** Strings: prefixes, occurrences, [find] and [split] *)

Section StringFacts.
Import Py PySplit.

Lemma startswith_app (sub rest : pystr) : startswith sub (sub ++ rest) = true.
Proof.
  induction sub as [|a sub IH]; simpl; [reflexivity|].
  rewrite N.eqb_refl. exact IH.
Qed.

Lemma startswith_inv (sub s : pystr) :
  startswith sub s = true -> s = sub ++ skipn (length sub) s.
Proof.
  revert s. induction sub as [|a sub IH]; intros s H; simpl in *.
  - reflexivity.
  - destruct s as [|c s]; [discriminate|].
    apply andb_true_iff in H as [Hac Hrest].
    apply N.eqb_eq in Hac. subst c.
    simpl. f_equal. apply IH. exact Hrest.
Qed.

Lemma startswith_length (sub s : pystr) :
  startswith sub s = true -> length sub <= length s.
Proof.
  intros H. apply startswith_inv in H.
  rewrite H, length_app. lia.
Qed.

Lemma startswith_contains (sub s : pystr) :
  startswith sub s = true -> contains sub s = true.
Proof. intros H. destruct s; simpl in *; rewrite H; reflexivity. Qed.

(** [find] and [in] agree on whether there is an occurrence. *)
Lemma find_None_contains (sub s : pystr) :
  find sub s = None <-> contains sub s = false.
Proof.
  induction s as [|c s IH]; simpl.
  - destruct (startswith sub []); simpl; split; congruence.
  - destruct (startswith sub (c :: s)); simpl.
    + split; congruence.
    + destruct (find sub s); simpl.
      * split; [discriminate|]. intros H. apply IH in H. discriminate.
      * split; [|reflexivity]. intros _. apply IH. reflexivity.
Qed.

(** [in] means: the string is some text, the substring, some text. *)
Lemma contains_spec (sub s : pystr) :
  contains sub s = true <-> exists a b, s = a ++ sub ++ b.
Proof.
  split.
  - induction s as [|c s IH]; simpl; intros H.
    + rewrite orb_false_r in H. apply startswith_inv in H.
      exists [], (skipn (length sub) []). exact H.
    + apply orb_true_iff in H as [H|H].
      * apply startswith_inv in H.
        exists [], (skipn (length sub) (c :: s)). exact H.
      * destruct (IH H) as (a & b & ->).
        exists (c :: a), b. reflexivity.
  - intros (a & b & ->).
    induction a as [|c a IH]; simpl.
    + apply startswith_contains, startswith_app.
    + rewrite IH. apply orb_true_r.
Qed.

(** What [find] returns is an occurrence, and the leftmost one. *)
Lemma find_Some_spec (sub s : pystr) (i : nat) :
  find sub s = Some i ->
  s = firstn i s ++ sub ++ skipn (i + length sub) s
  /\ forall j, j < i -> startswith sub (skipn j s) = false.
Proof.
  revert i. induction s as [|c s IH]; intros i; simpl.
  - destruct (startswith sub []) eqn:E; [|discriminate].
    intros [= <-]. split; [|intros j Hj; lia].
    apply startswith_inv in E. simpl. exact E.
  - destruct (startswith sub (c :: s)) eqn:E.
    + intros [= <-]. split; [|intros j Hj; lia].
      apply startswith_inv in E. exact E.
    + destruct (find sub s) as [i'|] eqn:F; simpl; [|discriminate].
      intros [= <-]. destruct (IH i' eq_refl) as [Hs Hleft].
      split.
      * simpl. f_equal. exact Hs.
      * intros [|j] Hj; simpl; [exact E|]. apply Hleft. lia.
Qed.

Lemma find_Some_bound (sub s : pystr) (i : nat) :
  find sub s = Some i -> i + length sub <= length s.
Proof.
  revert i. induction s as [|c s IH]; intros i; simpl.
  - destruct (startswith sub []) eqn:E; [|discriminate].
    intros [= <-]. apply startswith_length in E. simpl in *. lia.
  - destruct (startswith sub (c :: s)) eqn:E.
    + intros [= <-]. apply startswith_length in E. simpl in *. lia.
    + destruct (find sub s) as [i'|] eqn:F; simpl; [|discriminate].
      intros [= <-]. specialize (IH i' eq_refl). lia.
Qed.

Lemma find_nil (sub : pystr) : sub <> [] -> find sub [] = None.
Proof. destruct sub; [congruence|reflexivity]. Qed.

(** More rounds than characters change nothing. *)
Lemma split_loop_enough (sep : pystr) :
  sep <> [] ->
  forall n m s, length s <= n -> length s <= m ->
    split_loop n sep s = split_loop m sep s.
Proof.
  intros Hsep. induction n as [|n IH]; intros m s Hn Hm.
  - destruct s; [|simpl in Hn; lia].
    destruct m; cbn [split_loop]; [reflexivity|]. now rewrite find_nil.
  - destruct m as [|m].
    + destruct s; [|simpl in Hm; lia]. cbn [split_loop]. now rewrite find_nil.
    + cbn [split_loop]. destruct (find sep s) as [i|] eqn:F; [|reflexivity].
      f_equal. apply find_Some_bound in F.
      assert (0 < length sep) by (destruct sep; [congruence|simpl; lia]).
      apply IH; rewrite length_skipn; lia.
Qed.

(** The equation of [split]: one cut at the leftmost separator, then the
    same for the text behind it. *)
Lemma split_step (sep s : pystr) :
  sep <> [] ->
  split_loop (length s) sep s =
    match find sep s with
    | None => [s]
    | Some i =>
        let rest := skipn (i + length sep) s in
        firstn i s :: split_loop (length rest) sep rest
    end.
Proof.
  intros Hsep. destruct s as [|c s].
  - cbn [length split_loop]. now rewrite find_nil.
  - cbn [length split_loop]. destruct (find sep (c :: s)) as [i|] eqn:F; [|reflexivity].
    cbv zeta. f_equal. apply find_Some_bound in F.
    assert (0 < length sep) by (destruct sep; [congruence|simpl; lia]).
    apply split_loop_enough; [exact Hsep| |lia].
    rewrite length_skipn. simpl in *. lia.
Qed.

End StringFacts.

(** ** The reply splitter *)

Section Splitter.
Import Py PySplit.

Lemma delimiter_nonempty : Spec.DELIMITER <> [].
Proof. discriminate. Qed.

Lemma split_delimiter (s : pystr) :
  split (str "---") s = Ok (split_loop (length s) Spec.DELIMITER s).
Proof. reflexivity. Qed.

(** Without a trigger word the reply is returned as it is. *)
Lemma parse_without_trigger (response : pystr) :
  Spec.has_trigger response = false ->
  parse_response_with_score response = Ok (response, []).
Proof.
  unfold parse_response_with_score, Spec.has_trigger.
  intros ->. reflexivity.
Qed.

(** Without a delimiter [split] gives one part, and the guard
    [len(parts) > 1] sends the reply to the last [return]. *)
Lemma parse_without_delimiter (response : pystr) :
  contains Spec.DELIMITER response = false ->
  parse_response_with_score response = Ok (response, []).
Proof.
  intros H. unfold parse_response_with_score.
  destruct (contains (str "Score:") response || contains (str "Rating:") response);
    [|reflexivity].
  rewrite split_delimiter, (split_step _ _ delimiter_nonempty).
  apply find_None_contains in H. rewrite H. reflexivity.
Qed.

(** With a trigger word and a delimiter, the first two parts of [split]
    are returned, each stripped. *)
Lemma parse_with_delimiter (response : pystr) :
  Spec.has_trigger response = true ->
  contains Spec.DELIMITER response = true ->
  parse_response_with_score response =
    Ok (strip (Spec.before_first Spec.DELIMITER response),
        strip (Spec.before_first Spec.DELIMITER
                 (Spec.after_first Spec.DELIMITER response))).
Proof.
  unfold parse_response_with_score, Spec.has_trigger. intros -> H.
  rewrite split_delimiter, (split_step _ _ delimiter_nonempty).
  unfold Spec.before_first at 1, Spec.after_first.
  destruct (find Spec.DELIMITER response) as [i|] eqn:F.
  - cbv zeta. set (rest := skipn (i + length Spec.DELIMITER) response).
    rewrite (split_step _ rest delimiter_nonempty).
    unfold Spec.before_first.
    destruct (find Spec.DELIMITER rest); reflexivity.
  - apply find_None_contains in F. congruence.
Qed.

(** The splitter returns on every reply. *)
Lemma parse_total (response : pystr) :
  exists main_content score_content,
    parse_response_with_score response = Ok (main_content, score_content).
Proof.
  destruct (Spec.has_trigger response) eqn:Htrigger;
    [|eauto using parse_without_trigger].
  destruct (contains Spec.DELIMITER response) eqn:Hdelim;
    [|eauto using parse_without_delimiter].
  eauto using parse_with_delimiter.
Qed.

(** When the text behind the first delimiter holds no further delimiter,
    all of it is the second part. *)
Lemma before_first_without (sep s : pystr) :
  contains sep s = false -> Spec.before_first sep s = s.
Proof.
  intros H. apply find_None_contains in H.
  unfold Spec.before_first. now rewrite H.
Qed.

(** [before_first] and [after_first] cut at the leftmost delimiter. *)
Lemma first_delimiter_spec (sep s : pystr) :
  contains sep s = true ->
  s = Spec.before_first sep s ++ sep ++ Spec.after_first sep s
  /\ forall j, j < length (Spec.before_first sep s) ->
       startswith sep (skipn j s) = false.
Proof.
  intros H. unfold Spec.before_first, Spec.after_first.
  destruct (find sep s) as [i|] eqn:F.
  - destruct (find_Some_spec _ _ _ F) as [Hs Hleft]. split; [exact Hs|].
    intros j Hj. apply Hleft. rewrite length_firstn in Hj. lia.
  - apply find_None_contains in F. congruence.
Qed.

End Splitter.

(** C2, as the code has it: with a trigger word and a delimiter in the
    reply, mainContent is the stripped text before the first "---" and
    scoreContent is the stripped text between the first "---" and the next
    one (the second element of an unbounded [split]); it is the whole
    stripped remainder exactly when the remainder holds no further "---". *)
Theorem split_keeps_first_two_parts (response : pystr) :
  Spec.has_trigger response = true ->
  Py.contains Spec.DELIMITER response = true ->
  parse_response_with_score response =
    Ok (Py.strip (Spec.before_first Spec.DELIMITER response),
        Py.strip (Spec.before_first Spec.DELIMITER
                    (Spec.after_first Spec.DELIMITER response)))
  /\ (Py.contains Spec.DELIMITER (Spec.after_first Spec.DELIMITER response) = false ->
      parse_response_with_score response =
        Ok (Py.strip (Spec.before_first Spec.DELIMITER response),
            Py.strip (Spec.after_first Spec.DELIMITER response))).
Proof.
  intros Htrigger Hdelim.
  pose proof (parse_with_delimiter response Htrigger Hdelim) as Hparse.
  split; [exact Hparse|].
  intros Hlast. rewrite Hparse. now rewrite (before_first_without _ _ Hlast).
Qed.

Lemma split_keeps_first_two_parts_scenario_b :
  Spec.has_trigger Scenario.reply_b = true
  /\ Py.contains Spec.DELIMITER Scenario.reply_b = true
  /\ parse_response_with_score Scenario.reply_b =
       Ok (str "Good answer overall.", str "Score: 7/10, Rating: Strong").
Proof.
  split; [reflexivity|]. split; [reflexivity|].
  destruct (split_keeps_first_two_parts Scenario.reply_b eq_refl eq_refl) as [H _].
  rewrite H. vm_compute. reflexivity.
Defined.

(** C2 as worded fails: in a reply with two delimiters the text behind the
    second "---" is not part of scoreContent. *)
Lemma second_delimiter_ends_score :
  Spec.has_trigger Scenario.reply_two_rules = true
  /\ Py.contains Spec.DELIMITER Scenario.reply_two_rules = true
  /\ parse_response_with_score Scenario.reply_two_rules =
       Ok (str "Score: 8/10", str "Clear structure.")
  /\ parse_response_with_score Scenario.reply_two_rules <>
       Ok (Py.strip (Spec.before_first Spec.DELIMITER Scenario.reply_two_rules),
           Py.strip (Spec.after_first Spec.DELIMITER Scenario.reply_two_rules)).
Proof.
  split; [reflexivity|]. split; [reflexivity|]. split; [reflexivity|].
  vm_compute. discriminate.
Qed.

(** C3: [parse_response_with_score] returns on every input, and when the
    reply has no trigger word, or has one but no "---", it returns the reply
    unchanged together with an empty score. *)
Theorem split_degrades_to_full_text (x : pystr) :
  (exists parsed, parse_response_with_score x = Ok parsed)
  /\ (Spec.has_trigger x = false \/ Py.contains Spec.DELIMITER x = false ->
      parse_response_with_score x = Ok (x, [])).
Proof.
  assert (Hdegrade : Spec.has_trigger x = false \/ Py.contains Spec.DELIMITER x = false ->
                     parse_response_with_score x = Ok (x, [])).
  { intros [H|H]; [apply parse_without_trigger|apply parse_without_delimiter]; exact H. }
  split; [|exact Hdegrade].
  destruct (parse_total x) as (main_content & score_content & H). eauto.
Qed.

Lemma split_degrades_to_full_text_scenario_c :
  Spec.has_trigger Scenario.reply_c = false
  /\ parse_response_with_score Scenario.reply_c = Ok (Scenario.reply_c, []).
Proof.
  split; [reflexivity|].
  apply (split_degrades_to_full_text Scenario.reply_c). left. reflexivity.
Defined.

(** ** The prompt catalogue *)

Section Catalogue.

Lemma catalogue_keys : INTERVIEW_PROMPTS_items.*1 = INTERVIEW_TYPE_OPTIONS.
Proof. reflexivity. Qed.

(** A name outside the six options is not a key of the dict. *)
Lemma lookup_unknown (c : pystr) :
  c ∉ INTERVIEW_TYPE_OPTIONS -> INTERVIEW_PROMPTS !! c = None.
Proof.
  intros H. unfold INTERVIEW_PROMPTS.
  apply not_elem_of_list_to_map_1. now rewrite catalogue_keys.
Qed.

(** Whatever the dict holds is one of the items of the literal. *)
Lemma lookup_known (c v : pystr) :
  INTERVIEW_PROMPTS !! c = Some v -> (c, v) ∈ INTERVIEW_PROMPTS_items.
Proof. unfold INTERVIEW_PROMPTS. apply elem_of_list_to_map_2. Qed.

Lemma prompts_nonempty :
  Forall (fun item : pystr * pystr => item.2 <> []) INTERVIEW_PROMPTS_items.
Proof. unfold INTERVIEW_PROMPTS_items. repeat constructor; discriminate. Qed.

Lemma general_is_a_key :
  exists general, INTERVIEW_PROMPTS !! str "General" = Some general.
Proof. eexists. vm_compute. reflexivity. Qed.

(** The lookup never raises: the default's key is in the dict. *)
Lemma get_system_prompt_total (c : pystr) :
  exists general,
    INTERVIEW_PROMPTS !! str "General" = Some general
    /\ get_system_prompt c = Ok (PyDict.get INTERVIEW_PROMPTS c general).
Proof.
  destruct general_is_a_key as [general Hg]. exists general.
  split; [exact Hg|].
  unfold get_system_prompt, PyDict.getitem. rewrite Hg. reflexivity.
Qed.

(** Two options that agree up to letter case are the same option. *)
Lemma options_differ_beyond_case (c k : pystr) :
  c ∈ INTERVIEW_TYPE_OPTIONS -> k ∈ INTERVIEW_TYPE_OPTIONS ->
  Spec.same_up_to_case c k -> c = k.
Proof.
  unfold Spec.same_up_to_case, INTERVIEW_TYPE_OPTIONS.
  intros Hc Hk. apply list_elem_of_In in Hc, Hk. simpl in Hc, Hk.
  intros Hcase.
  repeat match goal with
         | H : _ \/ _ |- _ => destruct H as [H|H]
         | H : False |- _ => destruct H
         end; subst c k; first [reflexivity | vm_compute in Hcase; discriminate Hcase].
Qed.

(** Every category but General has a prompt of its own. *)
Lemma general_prompt_is_unique (k general : pystr) :
  k ∈ INTERVIEW_TYPE_OPTIONS -> k <> str "General" ->
  INTERVIEW_PROMPTS !! str "General" = Some general ->
  INTERVIEW_PROMPTS !! k <> Some general.
Proof.
  unfold INTERVIEW_TYPE_OPTIONS.
  intros Hk Hne Hg Hkg. rewrite <- Hg in Hkg. clear Hg.
  apply list_elem_of_In in Hk. simpl in Hk.
  repeat match goal with
         | H : _ \/ _ |- _ => destruct H as [H|H]
         | H : False |- _ => destruct H
         end; subst k; first [congruence | vm_compute in Hkg; discriminate Hkg].
Qed.

End Catalogue.

Lemma option_is_a_key (k : pystr) :
  k ∈ INTERVIEW_TYPE_OPTIONS ->
  exists own, INTERVIEW_PROMPTS !! k = Some own.
Proof.
  intros Hk. destruct (INTERVIEW_PROMPTS !! k) as [own|] eqn:E; [eauto|].
  unfold INTERVIEW_PROMPTS in E. apply not_elem_of_list_to_map_2 in E.
  now rewrite catalogue_keys in E.
Qed.

(** C4: for every input string, the empty one and unknown tags included,
    [get_system_prompt] returns (it does not raise) a non-empty prompt, and
    for an input that is none of the six category names the prompt is the
    one stored under "General". *)
Theorem catalogue_lookup_total (c : pystr) :
  exists prompt,
    get_system_prompt c = Ok prompt
    /\ prompt <> []
    /\ (c ∉ INTERVIEW_TYPE_OPTIONS ->
        INTERVIEW_PROMPTS !! str "General" = Some prompt).
Proof.
  destruct (get_system_prompt_total c) as (general & Hg & Hc).
  exists (PyDict.get INTERVIEW_PROMPTS c general).
  split; [exact Hc|]. unfold PyDict.get. split.
  - pose proof prompts_nonempty as Hne. rewrite Forall_forall in Hne.
    destruct (INTERVIEW_PROMPTS !! c) as [own|] eqn:E.
    + apply (Hne (c, own)), lookup_known, E.
    + apply (Hne (str "General", general)), lookup_known, Hg.
  - intros Hc'. now rewrite (lookup_unknown c Hc').
Qed.

Lemma catalogue_lookup_total_empty_tag :
  exists prompt,
    get_system_prompt [] = Ok prompt
    /\ prompt <> []
    /\ INTERVIEW_PROMPTS !! str "General" = Some prompt.
Proof.
  destruct (catalogue_lookup_total []) as (prompt & Hget & Hne & Hgeneral).
  exists prompt. split; [exact Hget|]. split; [exact Hne|].
  apply Hgeneral. unfold INTERVIEW_TYPE_OPTIONS.
  intros Hin. apply list_elem_of_In in Hin. simpl in Hin.
  repeat destruct Hin as [Hin|Hin]; try discriminate Hin. exact Hin.
Defined.

(** C10, as the code has it: the lookup matches category names exactly, so
    an input that differs from one of the six names only in letter case
    gets the General prompt; for a name other than "General" that is not the
    prompt of the category whose name it resembles. *)
Theorem lookup_is_case_sensitive (c k : pystr) :
  k ∈ INTERVIEW_TYPE_OPTIONS ->
  c <> k ->
  Spec.same_up_to_case c k ->
  exists general own,
    INTERVIEW_PROMPTS !! str "General" = Some general
    /\ INTERVIEW_PROMPTS !! k = Some own
    /\ get_system_prompt k = Ok own
    /\ get_system_prompt c = Ok general
    /\ (k <> str "General" -> own <> general).
Proof.
  intros Hk Hne Hcase.
  destruct (get_system_prompt_total c) as (general & Hg & Hc).
  destruct (get_system_prompt_total k) as (general' & Hg' & Hkget).
  rewrite Hg in Hg'. injection Hg' as <-.
  destruct (option_is_a_key k Hk) as [own Hown].
  exists general, own. split; [exact Hg|]. split; [exact Hown|].
  unfold PyDict.get in Hc, Hkget. rewrite Hown in Hkget.
  split; [exact Hkget|]. split.
  - rewrite Hc, lookup_unknown; [reflexivity|].
    intros Hcin. apply Hne. now apply options_differ_beyond_case.
  - intros Hkg ->. now apply (general_prompt_is_unique k general Hk Hkg Hg).
Qed.

Lemma lookup_is_case_sensitive_frontend :
  exists general own,
    INTERVIEW_PROMPTS !! str "Frontend" = Some own
    /\ get_system_prompt (str "Frontend") = Ok own
    /\ get_system_prompt (str "frontend") = Ok general
    /\ own <> general.
Proof.
  assert (Hk : str "Frontend" ∈ INTERVIEW_TYPE_OPTIONS).
  { apply list_elem_of_In. simpl. right. left. reflexivity. }
  assert (Hne : str "frontend" <> str "Frontend") by discriminate.
  assert (Hcase : Spec.same_up_to_case (str "frontend") (str "Frontend"))
    by reflexivity.
  destruct (lookup_is_case_sensitive (str "frontend") (str "Frontend") Hk Hne Hcase)
    as (general & own & _ & Hown & Hexact & Hfallback & Hdiffer).
  exists general, own. split; [exact Hown|]. split; [exact Hexact|].
  split; [exact Hfallback|]. apply Hdiffer. discriminate.
Defined.

(** C10 as worded fails for the category General itself: "general" differs
    from "General" only in letter case, and what it gets is General's own
    prompt. *)
Lemma general_in_lower_case_gets_own_prompt :
  str "General" ∈ INTERVIEW_TYPE_OPTIONS
  /\ str "general" <> str "General"
  /\ Spec.same_up_to_case (str "general") (str "General")
  /\ ~ (get_system_prompt (str "general") <> get_system_prompt (str "General")).
Proof.
  split; [apply list_elem_of_In; simpl; left; reflexivity|].
  split; [discriminate|]. split; [reflexivity|].
  intros H. apply H. vm_compute. reflexivity.
Qed.

(** ** The session *)

Section Session.

Lemma apply_ops_snoc (ops : list Spec.session_op) (op : Spec.session_op)
      (s : session_state) :
  Spec.apply_ops (ops ++ [op]) s = Spec.apply_op (Spec.apply_ops ops s) op.
Proof. unfold Spec.apply_ops. now rewrite fold_left_app. Qed.

Lemma user_ops_snoc (ops : list Spec.session_op) (op : Spec.session_op) :
  Spec.user_ops (ops ++ [op]) =
    Spec.user_ops ops + (if Spec.is_user_op op then 1 else 0).
Proof.
  unfold Spec.user_ops. rewrite List.filter_app, length_app. simpl.
  destruct (Spec.is_user_op op); reflexivity.
Qed.

Lemma assistant_ops_snoc (ops : list Spec.session_op) (op : Spec.session_op) :
  Spec.assistant_ops (ops ++ [op]) =
    Spec.assistant_ops ops + (if Spec.is_user_op op then 0 else 1).
Proof.
  unfold Spec.assistant_ops. rewrite List.filter_app, length_app. simpl.
  destruct (Spec.is_user_op op); reflexivity.
Qed.

Lemma ops_are_user_or_assistant (ops : list Spec.session_op) :
  length ops = Spec.user_ops ops + Spec.assistant_ops ops.
Proof.
  unfold Spec.user_ops, Spec.assistant_ops.
  induction ops as [|op ops IH]; simpl; [reflexivity|].
  destruct (Spec.is_user_op op); simpl; lia.
Qed.

(** The counters after any sequence of appends, from any session. *)
Lemma counters_after_ops (ops : list Spec.session_op) (s : session_state) :
  message_count (Spec.apply_ops ops s) =
    (message_count s + Z.of_nat (Spec.user_ops ops))%Z
  /\ length (messages (Spec.apply_ops ops s)) =
       length (messages s) + (Spec.user_ops ops + Spec.assistant_ops ops).
Proof.
  induction ops as [|op ops IH] using rev_ind.
  - cbn. split; lia.
  - destruct IH as [IHcount IHlen].
    rewrite apply_ops_snoc, user_ops_snoc, assistant_ops_snoc.
    destruct op as [text|text]; simpl; rewrite ?length_app; simpl; lia.
Qed.

(** The history after any sequence of appends keeps what was there, in
    place: appends only add at the end. *)
Lemma history_is_append_only (ops : list Spec.session_op) (s : session_state) :
  exists added, messages (Spec.apply_ops ops s) = messages s ++ added.
Proof.
  induction ops as [|op ops IH] using rev_ind.
  - exists []. simpl. now rewrite app_nil_r.
  - destruct IH as [added IH]. rewrite apply_ops_snoc.
    destruct op as [text|text]; simpl; rewrite IH, <- app_assoc; eauto.
Qed.

End Session.

(** C5: from an empty session, after any interleaving of k [AppendUser] and
    m [AppendAssistant] operations, [message_count] is k and the history has
    k + m entries; appending an assistant message leaves [message_count] as
    it was. *)
Theorem session_counters (category : pystr) (ops : list Spec.session_op) :
  message_count (Spec.apply_ops ops (set_interview_type category initial_session)) =
    Z.of_nat (Spec.user_ops ops)
  /\ length (messages (Spec.apply_ops ops (set_interview_type category initial_session))) =
       Spec.user_ops ops + Spec.assistant_ops ops
  /\ length ops = Spec.user_ops ops + Spec.assistant_ops ops
  /\ forall output s, message_count (append_assistant output s) = message_count s.
Proof.
  destruct (counters_after_ops ops (set_interview_type category initial_session))
    as [Hcount Hlen].
  split; [rewrite Hcount; reflexivity|].
  split; [rewrite Hlen; reflexivity|].
  split; [apply ops_are_user_or_assistant|reflexivity].
Qed.

(** ** The turn pipeline *)

Section Pipeline.

Lemma format_conversation_history_acc (l acc : list message) :
  fold_left
    (fun formatted msg =>
       formatted ++ [ {| role := role msg; content := content msg |} ])
    l acc = acc ++ l.
Proof.
  revert acc. induction l as [|[r c] l IH]; intros acc; simpl.
  - now rewrite app_nil_r.
  - rewrite IH, <- app_assoc. reflexivity.
Qed.

(** The formatter copies the history entry by entry. *)
Lemma format_conversation_history_id (l : list message) :
  format_conversation_history l = l.
Proof. apply format_conversation_history_acc. Qed.

(** [(l + [x])[:-1]] is [l]. *)
Lemma all_but_last_snoc {A} (l : list A) (x : A) :
  PyList.all_but_last (l ++ [x]) = l.
Proof.
  unfold PyList.all_but_last. rewrite length_app. simpl.
  replace (length l + 1 - 1) with (length l) by lia.
  apply take_app_length.
Qed.

(** The request that is built once the user message is in the history:
    the slice drops that message again, and nothing puts it back. *)
Lemma build_messages_after_append (p user_input : pystr) (s : session_state) :
  build_messages p (append_user user_input s) =
    {| role := System; content := p |} :: messages s.
Proof.
  unfold build_messages, append_user. cbn [messages].
  now rewrite all_but_last_snoc, format_conversation_history_id.
Qed.

Lemma invocations_app (a b : list event) :
  Spec.invocations (a ++ b) = Spec.invocations a ++ Spec.invocations b.
Proof.
  induction a as [|e a IH]; simpl; [reflexivity|].
  destruct e; simpl; rewrite IH; reflexivity.
Qed.

(** The turn when the model call raises: the [except] branch runs. *)
Lemma chat_turn_failure (llm : ChatModel) (category user_input p : pystr)
      (s : session_state) (events : list event) (e : exn) :
  get_system_prompt category = Ok p ->
  invoke llm ({| role := System; content := p |} :: messages s) = Raise e ->
  chat_turn llm category user_input (s, events) =
    (Done tt,
     (append_user user_input s,
      events ++ [ ChatMessage User; Markdown user_input; ChatMessage Assistant;
                  Invoke ({| role := System; content := p |} :: messages s);
                  Error error_message; Info TROUBLESHOOTING ])).
Proof.
  intros Hp Hinvoke.
  cbv [chat_turn llm_invoke mbind script_bind St.update St.emit St.try_except
       St.lift St.session St.when fst snd].
  rewrite Hp, build_messages_after_append, Hinvoke.
  rewrite <- !app_assoc. reflexivity.
Qed.

(** The turn when the model call returns [output]. *)
Lemma chat_turn_success (llm : ChatModel)
      (category user_input p output main_content score_content : pystr)
      (s : session_state) (events : list event) :
  get_system_prompt category = Ok p ->
  invoke llm ({| role := System; content := p |} :: messages s) = Ok output ->
  parse_response_with_score output = Ok (main_content, score_content) ->
  chat_turn llm category user_input (s, events) =
    (Done tt,
     (append_assistant output (append_user user_input s),
      events ++ [ ChatMessage User; Markdown user_input; ChatMessage Assistant;
                  Invoke ({| role := System; content := p |} :: messages s);
                  Markdown main_content ]
             ++ (if truthy score_content
                 then [ Markdown (feedback_score score_content) ]
                 else []))).
Proof.
  intros Hp Hinvoke Hparse.
  cbv [chat_turn llm_invoke mbind script_bind St.update St.emit St.try_except
       St.lift St.session St.when fst snd].
  rewrite Hp, build_messages_after_append, Hinvoke, Hparse.
  cbv [fst snd mret script_ret].
  destruct (truthy score_content); cbv [fst snd];
    rewrite <- ?app_assoc; simpl; rewrite ?app_nil_r; reflexivity.
Qed.

(** In every turn the client is called once, with the system prompt and
    the history as it was before the submission: [length (messages s) + 1]
    entries, the submitted text not among them. *)
Lemma chat_turn_request (llm : ChatModel) (category user_input : pystr)
      (s : session_state) (events : list event) :
  exists p s' events',
    get_system_prompt category = Ok p
    /\ chat_turn llm category user_input (s, events) = (Done tt, (s', events'))
    /\ Spec.invocations events' =
         Spec.invocations events
         ++ [ {| role := System; content := p |} :: messages s ].
Proof.
  destruct (get_system_prompt_total category) as (general & _ & Hp).
  set (p := PyDict.get INTERVIEW_PROMPTS category general) in Hp.
  exists p.
  destruct (invoke llm ({| role := System; content := p |} :: messages s))
    as [output|e] eqn:Hinvoke.
  - destruct (parse_total output) as (main_content & score_content & Hparse).
    do 2 eexists. split; [exact Hp|]. split.
    + apply (chat_turn_success _ _ _ _ _ _ _ _ _ Hp Hinvoke Hparse).
    + rewrite !invocations_app. simpl.
      destruct (truthy score_content); reflexivity.
  - do 2 eexists. split; [exact Hp|]. split.
    + apply (chat_turn_failure _ _ _ _ _ _ _ Hp Hinvoke).
    + rewrite invocations_app. reflexivity.
Qed.

Lemma display_chat_history_events (history : list message)
      (s : session_state) (events : list event) :
  St.for_each history
    (fun message =>
       St.emit (ChatMessage (role message)) ;;
       St.emit (Markdown (content message))) (s, events) =
    (Done tt, (s, events ++ Spec.transcript history)).
Proof.
  revert events. induction history as [|m history IH]; intros events.
  - cbn. now rewrite app_nil_r.
  - cbn [St.for_each]. cbv [mbind script_bind St.emit fst snd].
    fold (@St.for_each message). rewrite IH.
    unfold Spec.transcript. cbn [map concat].
    rewrite <- !app_assoc. reflexivity.
Qed.

End Pipeline.

(** ** The page *)

Section Page.

(** A pressed button resets the session and restarts the script at once. *)
Lemma run_page_reset (env : environment) (w : widgets)
      (s : session_state) (events : list event) :
  clear_history_clicked w = true \/ new_session_clicked w = true ->
  run_page env w (s, events) =
    (Rerun,
     ({| messages := []; interview_type := selectbox w; message_count := 0 |},
      events)).
Proof.
  intros Hpressed.
  cbv [run_page mbind script_bind St.update St.when St.rerun fst snd].
  destruct (clear_history_clicked w); [reflexivity|].
  destruct Hpressed as [Hclear|Hnew]; [discriminate|].
  cbv [mret script_ret]. rewrite Hnew. reflexivity.
Qed.

(** Without a client the script stops at the guard. *)
Lemma run_page_without_client (env : environment) (w : widgets)
      (s : session_state) (events : list event) :
  initialize_llm env = None ->
  clear_history_clicked w = false ->
  new_session_clicked w = false ->
  run_page env w (s, events) =
    (Stopped,
     (set_interview_type (selectbox w) s,
      events ++ [ Error CONFIGURATION_ERROR; Info SETUP_INSTRUCTIONS ])).
Proof.
  intros Hllm Hclear Hnew.
  cbv [run_page mbind script_bind St.update St.when St.emit St.stop
       mret script_ret fst snd].
  rewrite Hclear, Hnew, Hllm. rewrite <- app_assoc. reflexivity.
Qed.

(** With a client and a submitted text the script draws the history, the
    input box, and runs the turn. *)
Lemma run_page_submit (env : environment) (llm : ChatModel) (w : widgets)
      (user_input : pystr) (s : session_state) (events : list event) :
  initialize_llm env = Some llm ->
  clear_history_clicked w = false ->
  new_session_clicked w = false ->
  chat_input w = Some user_input ->
  truthy user_input = true ->
  run_page env w (s, events) =
    chat_turn llm (selectbox w) user_input
      (set_interview_type (selectbox w) s,
       events ++ Spec.transcript (messages s) ++ [ChatInput]).
Proof.
  intros Hllm Hclear Hnew Hinput Htruthy.
  cbv [run_page mbind script_bind St.update St.when St.emit St.session
       display_chat_history mret script_ret fst snd].
  rewrite Hclear, Hnew, Hllm.
  rewrite display_chat_history_events, Hinput, Htruthy.
  cbn [messages set_interview_type]. rewrite <- app_assoc. reflexivity.
Qed.

(** The three ways in which no client comes out of [initialize_llm]. *)
Lemma initialize_llm_none (env : environment) :
  GROQ_API_KEY env = None
  \/ GROQ_API_KEY env = Some []
  \/ (exists api_key e,
        GROQ_API_KEY env = Some api_key /\ ChatGroq env api_key = Raise e) ->
  initialize_llm env = None.
Proof.
  unfold initialize_llm.
  intros [H|[H|(api_key & e & H & Hraise)]]; rewrite H; try reflexivity.
  rewrite Hraise. destruct (truthy api_key); reflexivity.
Qed.

End Page.

(** Scenario D: the history grows 0, 2, 4 and the counter 0, 1, 2; the
    request of the second run holds the first exchange and not the second
    submission. *)
Example two_submissions :
  Scenario.first_run.1 = Done tt
  /\ length (messages Scenario.first_run.2.1) = 2
  /\ message_count Scenario.first_run.2.1 = 1%Z
  /\ Scenario.second_run.1 = Done tt
  /\ length (messages Scenario.second_run.2.1) = 4
  /\ message_count Scenario.second_run.2.1 = 2%Z
  /\ (exists general,
        INTERVIEW_PROMPTS !! str "General" = Some general
        /\ Spec.invocations Scenario.second_run.2.2 =
             [ [ {| role := System; content := general |};
                 {| role := User; content := Scenario.question_a |};
                 {| role := Assistant; content := Scenario.reply_b |} ] ]).
Proof.
  repeat (split; [vm_compute; reflexivity|]).
  eexists. split; vm_compute; reflexivity.
Qed.

(** A key with which the client cannot be built leaves the page without a
    client. *)
Example bad_client_gives_none : initialize_llm Scenario.env_bad_client = None.
Proof. reflexivity. Qed.

(** C1 at Scenario A (category Backend, empty history, first question): the
    one request of the turn holds the system prompt and nothing else; the
    question just submitted is not in it.  [chat_turn_request] gives the
    same for every history. *)
Theorem request_omits_submitted_turn (llm : ChatModel) :
  exists backend s' events,
    INTERVIEW_PROMPTS !! str "Backend" = Some backend
    /\ chat_turn llm (str "Backend") Scenario.question_a (initial_session, []) =
         (Done tt, (s', events))
    /\ Spec.invocations events = [ [ {| role := System; content := backend |} ] ]
    /\ Spec.invocations events <>
         [ [ {| role := System; content := backend |};
             {| role := User; content := Scenario.question_a |} ] ].
Proof.
  destruct (chat_turn_request llm (str "Backend") Scenario.question_a initial_session [])
    as (p & s' & events & Hp & Hturn & Hrequests).
  exists p, s', events.
  split.
  - vm_compute in Hp. injection Hp as <-. vm_compute. reflexivity.
  - split; [exact Hturn|]. rewrite Hrequests. split; [reflexivity|].
    simpl. intros H. discriminate H.
Qed.

(** C6: whatever the session was, a run in which "Clear History" or "New
    Session" is pressed ends, at the button, with an empty history and a
    zero counter; each handler sets both fields in one step. *)
Theorem reset_clears_session (env : environment) (w : widgets)
        (s : session_state) (events : list event) :
  clear_history_clicked w = true \/ new_session_clicked w = true ->
  (exists s',
     run_page env w (s, events) = (Rerun, (s', events))
     /\ length (messages s') = 0
     /\ message_count s' = 0%Z)
  /\ length (messages (clear_history s)) = 0
  /\ message_count (clear_history s) = 0%Z
  /\ length (messages (new_session s)) = 0
  /\ message_count (new_session s) = 0%Z.
Proof.
  intros Hpressed. split; [|repeat split].
  eexists. split; [apply run_page_reset; exact Hpressed|]. split; reflexivity.
Qed.

Lemma reset_clears_session_after_exchange :
  length (messages Scenario.one_exchange) = 2
  /\ message_count Scenario.one_exchange = 1%Z
  /\ exists s',
       run_page Scenario.env_without_key (Scenario.press_clear (str "Backend"))
         (Scenario.one_exchange, []) = (Rerun, (s', []))
       /\ length (messages s') = 0
       /\ message_count s' = 0%Z.
Proof.
  split; [reflexivity|]. split; [reflexivity|].
  apply (reset_clears_session Scenario.env_without_key
           (Scenario.press_clear (str "Backend")) Scenario.one_exchange []).
  left. reflexivity.
Defined.

(** C7: when [llm.invoke] raises on the request of the turn, the turn still
    ends normally: the history is the old one plus the user message, which is
    its last entry, no assistant message is added, and the page shows the
    fixed error text and the fixed check list. *)
Theorem failed_turn_keeps_user_message (llm : ChatModel)
        (category user_input p : pystr) (s : session_state)
        (events : list event) (e : exn) :
  get_system_prompt category = Ok p ->
  invoke llm (build_messages p (append_user user_input s)) = Raise e ->
  exists s',
    chat_turn llm category user_input (s, events) =
      (Done tt,
       (s',
        events ++ [ ChatMessage User; Markdown user_input; ChatMessage Assistant;
                    Invoke (build_messages p (append_user user_input s));
                    Error error_message; Info TROUBLESHOOTING ]))
    /\ messages s' = messages s ++ [ {| role := User; content := user_input |} ]
    /\ last (messages s') = Some {| role := User; content := user_input |}
    /\ message_count s' = (message_count s + 1)%Z.
Proof.
  intros Hp Hinvoke. rewrite build_messages_after_append in *.
  exists (append_user user_input s).
  split; [apply (chat_turn_failure _ _ _ _ _ _ _ Hp Hinvoke)|].
  cbn [messages message_count append_user].
  split; [reflexivity|]. split; [apply last_snoc|reflexivity].
Qed.

Lemma failed_turn_keeps_user_message_after_exchange :
  exists s' events',
    chat_turn Scenario.failing (str "General") Scenario.question_a
      (Scenario.one_exchange, []) = (Done tt, (s', events'))
    /\ length (messages s') = 3
    /\ last (messages s') = Some {| role := User; content := Scenario.question_a |}
    /\ last events' = Some (Info TROUBLESHOOTING).
Proof.
  destruct (get_system_prompt_total (str "General")) as (general & _ & Hp).
  destruct (failed_turn_keeps_user_message Scenario.failing (str "General")
              Scenario.question_a _ Scenario.one_exchange [] _ Hp eq_refl)
    as (s' & Hturn & Hmessages & Hlast & _).
  eexists s', _. split; [exact Hturn|].
  split; [rewrite Hmessages; reflexivity|]. split; [exact Hlast|reflexivity].
Defined.

(** C8: when [llm.invoke] returns [output], the assistant message appended
    to the history carries [output] itself; the split and stripped
    [main_content] only goes to the page. *)
Theorem raw_reply_is_stored (llm : ChatModel)
        (category user_input p output : pystr) (s : session_state)
        (events : list event) :
  get_system_prompt category = Ok p ->
  invoke llm (build_messages p (append_user user_input s)) = Ok output ->
  exists main_content score_content s',
    parse_response_with_score output = Ok (main_content, score_content)
    /\ chat_turn llm category user_input (s, events) =
         (Done tt,
          (s',
           events ++ [ ChatMessage User; Markdown user_input; ChatMessage Assistant;
                       Invoke (build_messages p (append_user user_input s));
                       Markdown main_content ]
                  ++ (if truthy score_content
                      then [ Markdown (feedback_score score_content) ]
                      else [])))
    /\ messages s' =
         messages s ++ [ {| role := User; content := user_input |};
                         {| role := Assistant; content := output |} ]
    /\ last (messages s') = Some {| role := Assistant; content := output |}.
Proof.
  intros Hp Hinvoke. rewrite build_messages_after_append in *.
  destruct (parse_total output) as (main_content & score_content & Hparse).
  exists main_content, score_content, (append_assistant output (append_user user_input s)).
  split; [exact Hparse|].
  split; [apply (chat_turn_success _ _ _ _ _ _ _ _ _ Hp Hinvoke Hparse)|].
  cbn [messages append_assistant append_user].
  split; [now rewrite <- app_assoc|apply last_snoc].
Qed.

Lemma raw_reply_is_stored_padded :
  exists main_content score_content s' events',
    parse_response_with_score Scenario.reply_padded = Ok (main_content, score_content)
    /\ main_content = str "Well done."
    /\ chat_turn (Scenario.answering Scenario.reply_padded) (str "General")
         Scenario.question_a (initial_session, []) = (Done tt, (s', events'))
    /\ messages s' =
         [ {| role := User; content := Scenario.question_a |};
           {| role := Assistant; content := Scenario.reply_padded |} ].
Proof.
  destruct (get_system_prompt_total (str "General")) as (general & _ & Hp).
  destruct (raw_reply_is_stored (Scenario.answering Scenario.reply_padded)
              (str "General") Scenario.question_a _ Scenario.reply_padded
              initial_session [] Hp eq_refl)
    as (main_content & score_content & s' & Hparse & Hturn & Hmessages & _).
  exists main_content, score_content, s'. eexists.
  split; [exact Hparse|]. split.
  - vm_compute in Hparse. now injection Hparse as <- _.
  - split; [exact Hturn|exact Hmessages].
Defined.

(** C9: when the environment has no API key (none, or an empty one), or the
    client cannot be constructed, [initialize_llm] gives no client and no run
    of the script gets to the chat input: it makes no model call, and unless
    a button restarts it first it shows the configuration error once and
    stops. *)
Theorem no_client_blocks_pipeline (env : environment) :
  GROQ_API_KEY env = None
  \/ GROQ_API_KEY env = Some []
  \/ (exists api_key e,
        GROQ_API_KEY env = Some api_key /\ ChatGroq env api_key = Raise e) ->
  initialize_llm env = None
  /\ forall (w : widgets) (s : session_state),
       exists how s' events,
         run_page env w (s, []) = (how, (s', events))
         /\ (how = Stopped \/ how = Rerun)
         /\ Spec.invocations events = []
         /\ (ChatInput ∉ events)
         /\ (clear_history_clicked w = false ->
             new_session_clicked w = false ->
             how = Stopped
             /\ s' = set_interview_type (selectbox w) s
             /\ events = [ Error CONFIGURATION_ERROR; Info SETUP_INSTRUCTIONS ]).
Proof.
  intros Hnone. apply initialize_llm_none in Hnone. split; [exact Hnone|].
  intros w s.
  destruct (clear_history_clicked w) eqn:Hclear;
    [|destruct (new_session_clicked w) eqn:Hnew].
  - eexists _, _, _. split; [apply run_page_reset; now left|].
    split; [now right|]. split; [reflexivity|].
    split; [apply not_elem_of_nil|discriminate].
  - eexists _, _, _. split; [apply run_page_reset; now right|].
    split; [now right|]. split; [reflexivity|].
    split; [apply not_elem_of_nil|discriminate].
  - eexists _, _, _.
    split; [apply (run_page_without_client env w s [] Hnone Hclear Hnew)|].
    split; [now left|]. split; [reflexivity|]. split.
    + simpl. intros Hin. apply list_elem_of_In in Hin. simpl in Hin.
      destruct Hin as [Hin|[Hin|[]]]; discriminate Hin.
    + intros _ _. repeat split.
Qed.

Lemma no_client_blocks_pipeline_without_key :
  initialize_llm Scenario.env_without_key = None
  /\ exists how s' events,
       run_page Scenario.env_without_key
         (Scenario.submit (str "Backend") Scenario.question_a)
         (initial_session, []) = (how, (s', events))
       /\ Spec.invocations events = []
       /\ (ChatInput ∉ events)
       /\ how = Stopped
       /\ messages s' = []
       /\ events = [ Error CONFIGURATION_ERROR; Info SETUP_INSTRUCTIONS ].
Proof.
  destruct (no_client_blocks_pipeline Scenario.env_without_key (or_introl eq_refl))
    as [Hllm Hrun].
  split; [exact Hllm|].
  destruct (Hrun (Scenario.submit (str "Backend") Scenario.question_a) initial_session)
    as (how & s' & events & Hpage & _ & Hcalls & Hinput & Hstop).
  destruct (Hstop eq_refl eq_refl) as (Hhow & Hs' & Hevents).
  exists how, s', events. split; [exact Hpage|]. split; [exact Hcalls|].
  split; [exact Hinput|]. split; [exact Hhow|].
  split; [rewrite Hs'; reflexivity|exact Hevents].
Defined.

(** * Further properties of the code *)

(** ** Stripping *)

Section Stripping.
Import Py.

Lemma lstrip_split (s : pystr) :
  exists w, s = w ++ lstrip s /\ Shape.blank w.
Proof.
  induction s as [|c s IH]; simpl.
  - exists []. split; [reflexivity|constructor].
  - destruct (isspace c) eqn:E.
    + destruct IH as (w & Hs & Hw). exists (c :: w). split.
      * simpl. now rewrite <- Hs.
      * constructor; assumption.
    + exists []. split; [reflexivity|constructor].
Qed.

Lemma lstrip_head (s : pystr) (c : N) (t : pystr) :
  lstrip s = c :: t -> isspace c = false.
Proof.
  induction s as [|a s IH]; simpl; [discriminate|].
  destruct (isspace a) eqn:E; [exact IH|].
  intros [= <- _]. exact E.
Qed.

(** A character that is no whitespace stops [lstrip] for good. *)
Lemma lstrip_snoc (l : pystr) (c : N) :
  isspace c = false -> lstrip (l ++ [c]) = lstrip l ++ [c].
Proof.
  intros Hc. induction l as [|a l IH]; simpl.
  - now rewrite Hc.
  - destruct (isspace a); [exact IH|reflexivity].
Qed.

Lemma rstrip_split (s : pystr) :
  exists w, s = rstrip s ++ w /\ Shape.blank w.
Proof.
  destruct (lstrip_split (rev s)) as (w & Hs & Hw).
  exists (rev w). split.
  - unfold rstrip. rewrite <- rev_app_distr, <- Hs. symmetry. apply rev_involutive.
  - apply Forall_rev. exact Hw.
Qed.

(** [strip] removes whitespace at both ends and nothing else. *)
Lemma strip_split (s : pystr) :
  exists w1 w2, s = w1 ++ strip s ++ w2 /\ Shape.blank w1 /\ Shape.blank w2.
Proof.
  destruct (lstrip_split s) as (w1 & Hs & Hw1).
  destruct (rstrip_split (lstrip s)) as (w2 & Hl & Hw2).
  exists w1, w2. unfold strip. rewrite <- Hl. auto.
Qed.

Lemma strip_stripped (s : pystr) : Shape.stripped (strip s).
Proof.
  unfold Shape.stripped, strip, rstrip. split; intros c.
  - destruct (lstrip s) as [|c0 t] eqn:E; [discriminate|].
    apply lstrip_head in E. simpl rev.
    rewrite (lstrip_snoc _ _ E), rev_app_distr. simpl.
    intros [= <-]. exact E.
  - destruct (lstrip (rev (lstrip s))) as [|c1 t] eqn:E; [discriminate|].
    simpl rev. rewrite last_snoc. intros [= <-].
    exact (lstrip_head _ _ _ E).
Qed.

End Stripping.

(** ** The two parts of a split reply *)

Section Parts.
Import Py.

Lemma occurrence_at (sep a b : pystr) :
  startswith sep (skipn (length a) (a ++ sep ++ b)) = true.
Proof. rewrite drop_app_length. apply startswith_app. Qed.

(** The text before the leftmost separator holds no separator. *)
Lemma before_first_free (sep s : pystr) :
  sep <> [] -> contains sep (Spec.before_first sep s) = false.
Proof.
  intros Hsep. unfold Spec.before_first.
  destruct (find sep s) as [i|] eqn:F; [|now apply find_None_contains].
  destruct (contains sep (firstn i s)) eqn:C; [exfalso|reflexivity].
  apply contains_spec in C as (a & b & Hab).
  destruct (find_Some_spec _ _ _ F) as [_ Hleft].
  assert (Hlen : length a < i).
  { assert (Hle : length (firstn i s) <= i) by (rewrite length_firstn; lia).
    rewrite Hab, !length_app in Hle.
    destruct sep; [congruence|simpl in Hle; lia]. }
  specialize (Hleft _ Hlen).
  rewrite <- (firstn_skipn i s), Hab, <- !app_assoc, occurrence_at in Hleft.
  discriminate.
Qed.

Lemma contains_infix (sep pre t post : pystr) :
  contains sep t = true -> contains sep (pre ++ t ++ post) = true.
Proof.
  intros H. apply contains_spec in H as (a & b & ->).
  apply contains_spec. exists (pre ++ a), (b ++ post).
  now rewrite <- !app_assoc.
Qed.

Lemma strip_free (sep t : pystr) :
  contains sep t = false -> contains sep (strip t) = false.
Proof.
  intros H. destruct (contains sep (strip t)) eqn:C; [|reflexivity].
  destruct (strip_split t) as (w1 & w2 & Ht & _).
  apply (contains_infix sep w1 _ w2) in C. rewrite <- Ht in C. congruence.
Qed.

(** What [parse_response_with_score] returns when it has split: the parts
    as functions of the reply. *)
Lemma parse_split_parts (response main_content score_content : pystr) :
  Spec.has_trigger response = true ->
  contains Spec.DELIMITER response = true ->
  parse_response_with_score response = Ok (main_content, score_content) ->
  main_content = strip (Spec.before_first Spec.DELIMITER response)
  /\ score_content =
       strip (Spec.before_first Spec.DELIMITER
                (Spec.after_first Spec.DELIMITER response)).
Proof.
  intros Htrigger Hdelim Hparse.
  rewrite (parse_with_delimiter _ Htrigger Hdelim) in Hparse.
  injection Hparse as <- <-. auto.
Qed.

(** The text behind a cut is the part up to the next separator and what
    follows it. *)
Lemma before_first_prefix (sep s : pystr) :
  exists rest, s = Spec.before_first sep s ++ rest.
Proof.
  unfold Spec.before_first. destruct (find sep s) as [i|].
  - exists (skipn i s). symmetry. apply firstn_skipn.
  - exists []. now rewrite app_nil_r.
Qed.

(** Neither part of a split holds a separator. *)
Lemma parse_split_free (response main_content score_content : pystr) :
  Spec.has_trigger response = true ->
  contains Spec.DELIMITER response = true ->
  parse_response_with_score response = Ok (main_content, score_content) ->
  contains Spec.DELIMITER main_content = false
  /\ contains Spec.DELIMITER score_content = false.
Proof.
  intros Htrigger Hdelim Hparse.
  destruct (parse_split_parts _ _ _ Htrigger Hdelim Hparse) as [-> ->].
  split; apply strip_free, before_first_free, delimiter_nonempty.
Qed.

End Parts.

(** X1: when the splitter splits, neither part begins or ends with
    whitespace. *)
Theorem split_parts_are_stripped (response main_content score_content : pystr) :
  Spec.has_trigger response = true ->
  Py.contains Spec.DELIMITER response = true ->
  parse_response_with_score response = Ok (main_content, score_content) ->
  Shape.stripped main_content /\ Shape.stripped score_content.
Proof.
  intros Htrigger Hdelim Hparse.
  destruct (parse_split_parts _ _ _ Htrigger Hdelim Hparse) as [-> ->].
  split; apply strip_stripped.
Qed.

Lemma split_parts_are_stripped_padded :
  parse_response_with_score Scenario.reply_padded =
    Ok (str "Well done.", str "Score: 9/10")
  /\ Shape.stripped (str "Well done.")
  /\ Shape.stripped (str "Score: 9/10").
Proof.
  split; [reflexivity|].
  apply (split_parts_are_stripped Scenario.reply_padded); reflexivity.
Defined.

(** X2: when the splitter splits, neither part holds the delimiter. *)
Theorem split_parts_hold_no_delimiter
        (response main_content score_content : pystr) :
  Spec.has_trigger response = true ->
  Py.contains Spec.DELIMITER response = true ->
  parse_response_with_score response = Ok (main_content, score_content) ->
  Py.contains Spec.DELIMITER main_content = false
  /\ Py.contains Spec.DELIMITER score_content = false.
Proof.
  intros Htrigger Hdelim Hparse.
  destruct (parse_split_parts _ _ _ Htrigger Hdelim Hparse) as [-> ->].
  split; apply strip_free, before_first_free, delimiter_nonempty.
Qed.

Lemma split_parts_hold_no_delimiter_two_rules :
  parse_response_with_score Scenario.reply_two_rules =
    Ok (str "Score: 8/10", str "Clear structure.")
  /\ Py.contains Spec.DELIMITER (str "Score: 8/10") = false
  /\ Py.contains Spec.DELIMITER (str "Clear structure.") = false.
Proof.
  split; [reflexivity|].
  apply (split_parts_hold_no_delimiter Scenario.reply_two_rules); reflexivity.
Defined.

(** X3: when the splitter splits, the reply reads: whitespace, the main
    part, whitespace, the delimiter, whitespace, the score part, and a rest;
    up to the score part only whitespace and one delimiter are dropped. *)
Theorem split_parts_lie_in_reply (response main_content score_content : pystr) :
  Spec.has_trigger response = true ->
  Py.contains Spec.DELIMITER response = true ->
  parse_response_with_score response = Ok (main_content, score_content) ->
  exists w1 w2 w3 rest,
    response =
      w1 ++ main_content ++ w2 ++ Spec.DELIMITER ++ w3 ++ score_content ++ rest
    /\ Shape.blank w1 /\ Shape.blank w2 /\ Shape.blank w3.
Proof.
  intros Htrigger Hdelim Hparse.
  destruct (parse_split_parts _ _ _ Htrigger Hdelim Hparse) as [-> ->].
  destruct (first_delimiter_spec _ _ Hdelim) as [Hresponse _].
  set (before := Spec.before_first Spec.DELIMITER response) in *.
  set (behind := Spec.after_first Spec.DELIMITER response) in *.
  destruct (before_first_prefix Spec.DELIMITER behind) as [tail Hbehind].
  set (middle := Spec.before_first Spec.DELIMITER behind) in *.
  destruct (strip_split before) as (w1 & w2 & Hbefore & Hw1 & Hw2).
  destruct (strip_split middle) as (w3 & w4 & Hmiddle & Hw3 & _).
  exists w1, w2, w3, (w4 ++ tail). split; [|auto].
  rewrite Hresponse at 1. rewrite Hbehind at 1.
  rewrite Hbefore at 1. rewrite Hmiddle at 1.
  now rewrite <- !app_assoc.
Qed.

Lemma split_parts_lie_in_reply_padded :
  exists w1 w2 w3 rest,
    Scenario.reply_padded =
      w1 ++ str "Well done." ++ w2 ++ Spec.DELIMITER ++ w3
         ++ str "Score: 9/10" ++ rest
    /\ Shape.blank w1 /\ Shape.blank w2 /\ Shape.blank w3.
Proof.
  apply (split_parts_lie_in_reply Scenario.reply_padded); reflexivity.
Defined.

(** X4: splitting again changes nothing: each part of a result, given to
    the splitter, comes back whole with an empty score. *)
Theorem split_is_idempotent (response main_content score_content : pystr) :
  parse_response_with_score response = Ok (main_content, score_content) ->
  parse_response_with_score main_content = Ok (main_content, [])
  /\ parse_response_with_score score_content = Ok (score_content, []).
Proof.
  intros Hparse.
  destruct (Spec.has_trigger response) eqn:Htrigger;
    [destruct (Py.contains Spec.DELIMITER response) eqn:Hdelim|].
  - destruct (parse_split_free _ _ _ Htrigger Hdelim Hparse)
      as [Hmain Hscore].
    split; now apply parse_without_delimiter.
  - rewrite (parse_without_delimiter _ Hdelim) in Hparse.
    injection Hparse as <- <-.
    split; [now apply parse_without_delimiter|reflexivity].
  - rewrite (parse_without_trigger _ Htrigger) in Hparse.
    injection Hparse as <- <-.
    split; [now apply parse_without_trigger|reflexivity].
Qed.

Lemma split_is_idempotent_two_rules :
  parse_response_with_score (str "Score: 8/10") = Ok (str "Score: 8/10", [])
  /\ parse_response_with_score (str "Clear structure.") =
       Ok (str "Clear structure.", []).
Proof.
  apply (split_is_idempotent Scenario.reply_two_rules). reflexivity.
Defined.

(** ** The formatter, the catalogue and the client *)

(** X5: the formatter returns the history it is given: the same messages in
    the same order, so it keeps the length and goes through concatenation. *)
Theorem formatter_copies_history (history more : list message) :
  format_conversation_history history = history
  /\ length (format_conversation_history history) = length history
  /\ format_conversation_history (history ++ more) =
       format_conversation_history history ++ format_conversation_history more.
Proof.
  rewrite !format_conversation_history_id.
  split; [reflexivity|]. split; reflexivity.
Qed.

(** X6: each option of the select box is a key of the catalogue and gets
    the prompt stored under it, and two different options never get the same
    prompt. *)
Theorem options_have_prompts_of_their_own (k1 k2 : pystr) :
  k1 ∈ INTERVIEW_TYPE_OPTIONS ->
  k2 ∈ INTERVIEW_TYPE_OPTIONS ->
  (exists own, INTERVIEW_PROMPTS !! k1 = Some own
               /\ get_system_prompt k1 = Ok own)
  /\ (get_system_prompt k1 = get_system_prompt k2 -> k1 = k2).
Proof.
  intros Hk1 Hk2. split.
  - destruct (option_is_a_key k1 Hk1) as [own Hown].
    destruct (get_system_prompt_total k1) as (general & _ & Hget).
    exists own. split; [exact Hown|].
    rewrite Hget. unfold PyDict.get. now rewrite Hown.
  - unfold INTERVIEW_TYPE_OPTIONS in Hk1, Hk2.
    apply list_elem_of_In in Hk1, Hk2. simpl in Hk1, Hk2.
    intros Hsame.
    repeat match goal with
           | H : _ \/ _ |- _ => destruct H as [H|H]
           | H : False |- _ => destruct H
           end; subst k1 k2;
      first [reflexivity | vm_compute in Hsame; discriminate Hsame].
Qed.

Lemma options_have_prompts_of_their_own_backend :
  (exists own, INTERVIEW_PROMPTS !! str "Backend" = Some own
               /\ get_system_prompt (str "Backend") = Ok own)
  /\ (get_system_prompt (str "Backend") = get_system_prompt (str "System Design") ->
      str "Backend" = str "System Design").
Proof.
  apply (options_have_prompts_of_their_own (str "Backend") (str "System Design"));
    apply list_elem_of_In; simpl; auto.
Defined.



(** ** Runs of the page *)

Section Runs.

Lemma invocations_transcript (history : list message) :
  Spec.invocations (Spec.transcript history) = [].
Proof. induction history as [|m history IH]; [reflexivity|exact IH]. Qed.

Lemma transcript_without_input (history : list message) :
  ChatInput ∉ Spec.transcript history.
Proof.
  induction history as [|m history IH]; [apply not_elem_of_nil|].
  unfold Spec.transcript. cbn [map concat app].
  intros Hin. apply elem_of_cons in Hin as [Hin|Hin]; [discriminate|].
  apply elem_of_cons in Hin as [Hin|Hin]; [discriminate|]. now apply IH.
Qed.

(** A run with a client in which nothing, or the empty string, is
    submitted. *)
Lemma run_page_idle (env : environment) (llm : ChatModel) (w : widgets)
      (s : session_state) (events : list event) :
  initialize_llm env = Some llm ->
  clear_history_clicked w = false ->
  new_session_clicked w = false ->
  chat_input w = None \/ chat_input w = Some [] ->
  run_page env w (s, events) =
    (Done tt,
     (set_interview_type (selectbox w) s,
      events ++ Spec.transcript (messages s) ++ [ChatInput])).
Proof.
  intros Hllm Hclear Hnew Hinput.
  cbv [run_page mbind script_bind St.update St.when St.emit St.session
       display_chat_history mret script_ret fst snd].
  rewrite Hclear, Hnew, Hllm, display_chat_history_events.
  cbn [messages set_interview_type]. rewrite <- app_assoc.
  destruct Hinput as [->| ->]; reflexivity.
Qed.

(** A run whose submission meets a failing client. *)
Lemma run_page_failed_turn (env : environment) (llm : ChatModel) (w : widgets)
      (user_input p : pystr) (e : exn) (s : session_state) (events : list event) :
  initialize_llm env = Some llm ->
  clear_history_clicked w = false ->
  new_session_clicked w = false ->
  chat_input w = Some user_input ->
  user_input <> [] ->
  get_system_prompt (selectbox w) = Ok p ->
  invoke llm ({| role := System; content := p |} :: messages s) = Raise e ->
  run_page env w (s, events) =
    (Done tt,
     (append_user user_input (set_interview_type (selectbox w) s),
      events ++ Spec.transcript (messages s)
             ++ [ ChatInput;
                  ChatMessage User; Markdown user_input; ChatMessage Assistant;
                  Invoke ({| role := System; content := p |} :: messages s);
                  Error error_message; Info TROUBLESHOOTING ])).
Proof.
  intros Hllm Hclear Hnew Hinput Htext Hp Hinvoke.
  assert (Htruthy : truthy user_input = true)
    by (destruct user_input; [congruence|reflexivity]).
  rewrite (run_page_submit env llm w user_input s events Hllm Hclear Hnew Hinput Htruthy).
  rewrite (chat_turn_failure llm _ user_input p
             (set_interview_type (selectbox w) s) _ e Hp Hinvoke).
  cbn [messages set_interview_type]. now rewrite <- !app_assoc.
Qed.

(** A run whose submission is answered. *)
Lemma run_page_answered_turn (env : environment) (llm : ChatModel) (w : widgets)
      (user_input p output main_content score_content : pystr)
      (s : session_state) (events : list event) :
  initialize_llm env = Some llm ->
  clear_history_clicked w = false ->
  new_session_clicked w = false ->
  chat_input w = Some user_input ->
  user_input <> [] ->
  get_system_prompt (selectbox w) = Ok p ->
  invoke llm ({| role := System; content := p |} :: messages s) = Ok output ->
  parse_response_with_score output = Ok (main_content, score_content) ->
  run_page env w (s, events) =
    (Done tt,
     (append_assistant output
        (append_user user_input (set_interview_type (selectbox w) s)),
      events ++ Spec.transcript (messages s)
             ++ [ ChatInput;
                  ChatMessage User; Markdown user_input; ChatMessage Assistant;
                  Invoke ({| role := System; content := p |} :: messages s);
                  Markdown main_content ]
             ++ (if truthy score_content
                 then [ Markdown (feedback_score score_content) ]
                 else []))).
Proof.
  intros Hllm Hclear Hnew Hinput Htext Hp Hinvoke Hparse.
  assert (Htruthy : truthy user_input = true)
    by (destruct user_input; [congruence|reflexivity]).
  rewrite (run_page_submit env llm w user_input s events Hllm Hclear Hnew Hinput Htruthy).
  rewrite (chat_turn_success llm _ user_input p output _ _
             (set_interview_type (selectbox w) s) _ Hp Hinvoke Hparse).
  cbn [messages set_interview_type]. now rewrite <- !app_assoc.
Qed.

(** Every run is one of the five kinds. *)
Lemma run_page_result (env : environment) (w : widgets)
      (s : session_state) (events : list event) :
  Shape.page_result env w s events (run_page env w (s, events)).
Proof.
  destruct (clear_history_clicked w) eqn:Hclear.
  { rewrite run_page_reset by now left. constructor. now left. }
  destruct (new_session_clicked w) eqn:Hnew.
  { rewrite run_page_reset by now right. constructor. now right. }
  destruct (initialize_llm env) as [llm|] eqn:Hllm.
  2: { rewrite run_page_without_client by assumption. now constructor. }
  destruct (chat_input w) as [[|c user_input]|] eqn:Hinput.
  - rewrite (run_page_idle env llm) by auto. eapply Shape.IdleRun; eauto.
  - destruct (get_system_prompt_total (selectbox w)) as (general & _ & Hp).
    set (p := PyDict.get INTERVIEW_PROMPTS (selectbox w) general) in Hp.
    assert (Htext : c :: user_input <> []) by discriminate.
    destruct (invoke llm ({| role := System; content := p |} :: messages s))
      as [output|e] eqn:Hinvoke.
    + destruct (parse_total output) as (main_content & score_content & Hparse).
      rewrite (run_page_answered_turn env llm w (c :: user_input) p output
                 main_content score_content s events) by assumption.
      eapply Shape.AnsweredTurn; eauto.
    + rewrite (run_page_failed_turn env llm w (c :: user_input) p e s events)
        by assumption.
      eapply Shape.FailedTurn; eauto.
  - rewrite (run_page_idle env llm) by auto. eapply Shape.IdleRun; eauto.
Qed.

(** What a run can do to the session. *)
Lemma next_session_cases (env : environment) (w : widgets) (s : session_state) :
  (Shape.next_session env w s =
     {| messages := []; interview_type := selectbox w; message_count := 0 |}
   /\ (clear_history_clicked w = true \/ new_session_clicked w = true))
  \/ (clear_history_clicked w = false /\ new_session_clicked w = false
      /\ (Shape.next_session env w s = set_interview_type (selectbox w) s
          \/ (exists user_input,
                Shape.next_session env w s =
                  append_user user_input (set_interview_type (selectbox w) s))
          \/ (exists user_input output,
                Shape.next_session env w s =
                  append_assistant output
                    (append_user user_input (set_interview_type (selectbox w) s))))).
Proof.
  unfold Shape.next_session.
  destruct (run_page_result env w s []) as [Hpressed|Hclear Hnew _|llm Hclear Hnew _ _
    |llm user_input p e Hclear Hnew _ _ _ _ _
    |llm user_input p output main_content score_content Hclear Hnew _ _ _ _ _ _];
    cbn [fst snd]; eauto 8.
Qed.

End Runs.

Section Invariants.

Lemma user_turns_app (a b : list message) :
  Shape.user_turns (a ++ b) = Shape.user_turns a + Shape.user_turns b.
Proof. unfold Shape.user_turns. now rewrite List.filter_app, length_app. Qed.

(** One run keeps the counter equal to the number of user messages. *)
Lemma counter_step (env : environment) (w : widgets) (s : session_state) :
  message_count s = Z.of_nat (Shape.user_turns (messages s)) ->
  message_count (Shape.next_session env w s) =
    Z.of_nat (Shape.user_turns (messages (Shape.next_session env w s))).
Proof.
  intros Hs.
  destruct (next_session_cases env w s)
    as [[-> _]|(_ & _ & [->|[(t & ->)|(t & output & ->)]])];
    cbn [messages message_count append_user append_assistant set_interview_type];
    rewrite ?user_turns_app; cbn; lia.
Qed.

(** One run keeps the history a sequence of exchanges. *)
Lemma exchanges_step (env : environment) (w : widgets) (s : session_state) :
  Shape.exchanges (messages s) ->
  Shape.exchanges (messages (Shape.next_session env w s)).
Proof.
  intros Hs.
  destruct (next_session_cases env w s)
    as [[-> _]|(_ & _ & [->|[(t & ->)|(t & output & ->)]])];
    cbn [messages append_user append_assistant set_interview_type].
  - constructor.
  - exact Hs.
  - now constructor.
  - rewrite <- app_assoc. now constructor.
Qed.

(** Where the last element of a list can lie in a split of that list. *)
Lemma snoc_eq_middle {A} (l before behind : list A) (x y : A) :
  l ++ [x] = before ++ y :: behind ->
  (behind = [] /\ l = before /\ x = y)
  \/ (exists behind', behind = behind' ++ [x] /\ l = before ++ y :: behind').
Proof.
  intros H. destruct behind as [|b behind _] using rev_ind.
  - left. apply app_inj_tail in H as [-> ->]. auto.
  - right. rewrite app_comm_cons, app_assoc in H.
    apply app_inj_tail in H as [-> ->]. eauto.
Qed.

(** In a history made of exchanges no system message occurs and every
    reply stands directly behind a user message. *)
Lemma exchanges_shape (history : list message) :
  Shape.exchanges history ->
  Forall (fun m => role m <> System) history
  /\ forall before output behind,
       history = before ++ {| role := Assistant; content := output |} :: behind ->
       exists earlier user_input,
         before = earlier ++ [ {| role := User; content := user_input |} ].
Proof.
  induction 1 as [|history t _ [IHroles IHpairs]|history t o _ [IHroles IHpairs]].
  - split; [constructor|]. intros [|? ?] ? ? H; discriminate H.
  - split.
    + apply Forall_app. split; [exact IHroles|]. repeat constructor. discriminate.
    + intros before output behind H.
      apply snoc_eq_middle in H as [(_ & _ & H)|(behind' & _ & H)];
        [discriminate H|]. now apply (IHpairs before output behind').
  - split.
    + apply Forall_app. split; [exact IHroles|]. repeat constructor; discriminate.
    + intros before output behind H.
      change (history ++ [ {| role := User; content := t |};
                           {| role := Assistant; content := o |} ])
        with (history ++ [ {| role := User; content := t |} ]
                      ++ [ {| role := Assistant; content := o |} ]) in H.
      rewrite app_assoc in H.
      apply snoc_eq_middle in H as [(_ & H & _)|(behind' & _ & H)].
      * exists history, t. now symmetry.
      * apply snoc_eq_middle in H as [(_ & _ & H)|(behind'' & _ & H)];
          [discriminate H|]. now apply (IHpairs before output behind'').
Qed.

(** A run with a submission makes one call: the system prompt of the
    selected category, then the stored history. *)
Lemma run_calls_after_submission (env : environment) (llm : ChatModel)
      (w : widgets) (user_input : pystr) (s : session_state) :
  clear_history_clicked w = false ->
  new_session_clicked w = false ->
  initialize_llm env = Some llm ->
  chat_input w = Some user_input ->
  user_input <> [] ->
  exists p,
    get_system_prompt (selectbox w) = Ok p
    /\ Spec.invocations (Shape.run_events env w s) =
         [ {| role := System; content := p |} :: messages s ].
Proof.
  intros Hclear Hnew Hllm Hinput Htext. unfold Shape.run_events.
  destruct (get_system_prompt_total (selectbox w)) as (general & _ & Hp).
  set (p := PyDict.get INTERVIEW_PROMPTS (selectbox w) general) in Hp.
  exists p. split; [exact Hp|].
  destruct (invoke llm ({| role := System; content := p |} :: messages s))
    as [output|e] eqn:Hinvoke.
  - destruct (parse_total output) as (main_content & score_content & Hparse).
    rewrite (run_page_answered_turn env llm w user_input p output main_content
               score_content s [] Hllm Hclear Hnew Hinput Htext Hp Hinvoke Hparse).
    cbn [fst snd app]. rewrite invocations_app, invocations_transcript.
    destruct (truthy score_content); reflexivity.
  - rewrite (run_page_failed_turn env llm w user_input p e s []
               Hllm Hclear Hnew Hinput Htext Hp Hinvoke).
    cbn [fst snd app]. now rewrite invocations_app, invocations_transcript.
Qed.

End Invariants.


(** X9: a run calls the model at most once, and only when no button is
    pressed, a client exists and a non-empty text is submitted; the request
    is then the system prompt of the category selected in this run followed
    by the history stored before the run. *)
Theorem run_calls_model_at_most_once (env : environment) (w : widgets)
        (s : session_state) :
  Spec.invocations (Shape.run_events env w s) = []
  \/ exists llm user_input p,
       clear_history_clicked w = false
       /\ new_session_clicked w = false
       /\ initialize_llm env = Some llm
       /\ chat_input w = Some user_input
       /\ user_input <> []
       /\ get_system_prompt (selectbox w) = Ok p
       /\ Spec.invocations (Shape.run_events env w s) =
            [ {| role := System; content := p |} :: messages s ].
Proof.
  unfold Shape.run_events.
  destruct (run_page_result env w s [])
    as [Hpressed|Hclear Hnew Hllm|llm Hclear Hnew Hllm Hinput
        |llm user_input p e Hclear Hnew Hllm Hinput Htext Hp Hinvoke
        |llm user_input p output main_content score_content
           Hclear Hnew Hllm Hinput Htext Hp Hinvoke Hparse];
    cbn [fst snd app].
  - now left.
  - now left.
  - left. now rewrite invocations_app, invocations_transcript.
  - right. exists llm, user_input, p. repeat (split; [assumption|]).
    now rewrite invocations_app, invocations_transcript.
  - right. exists llm, user_input, p. repeat (split; [assumption|]).
    rewrite invocations_app, invocations_transcript.
    destruct (truthy score_content); reflexivity.
Qed.

(** X10: without a button, a run only adds to the end of the history: at
    most two messages, none of them a system message, and everything stored
    before stays in place. *)
Theorem history_only_grows_at_the_end (env : environment) (w : widgets)
        (s : session_state) :
  clear_history_clicked w = false ->
  new_session_clicked w = false ->
  exists added,
    messages (Shape.next_session env w s) = messages s ++ added
    /\ length added <= 2
    /\ Forall (fun m => role m <> System) added
    /\ message_count (Shape.next_session env w s) =
         (message_count s + Z.of_nat (Shape.user_turns added))%Z.
Proof.
  intros Hclear Hnew.
  destruct (next_session_cases env w s)
    as [[_ [H|H]]|(_ & _ & [->|[(t & ->)|(t & output & ->)]])];
    try congruence;
    cbn [messages message_count append_user append_assistant set_interview_type].
  - exists []. rewrite app_nil_r. cbn.
    split; [reflexivity|]. split; [lia|]. split; [constructor|lia].
  - exists [ {| role := User; content := t |} ]. cbn.
    split; [reflexivity|]. split; [lia|].
    split; [|reflexivity]. repeat constructor. discriminate.
  - exists [ {| role := User; content := t |};
             {| role := Assistant; content := output |} ].
    rewrite <- app_assoc. cbn.
    split; [reflexivity|]. split; [lia|].
    split; [|reflexivity]. repeat constructor; discriminate.
Qed.

Lemma history_only_grows_at_the_end_second_question :
  exists added,
    messages (Shape.next_session Scenario.env_with_key
                (Scenario.submit (str "General") Scenario.reply_c)
                Scenario.one_exchange)
      = messages Scenario.one_exchange ++ added
    /\ length added <= 2
    /\ Forall (fun m => role m <> System) added
    /\ message_count (Shape.next_session Scenario.env_with_key
                        (Scenario.submit (str "General") Scenario.reply_c)
                        Scenario.one_exchange)
         = (message_count Scenario.one_exchange + Z.of_nat (Shape.user_turns added))%Z.
Proof.
  apply (history_only_grows_at_the_end Scenario.env_with_key
           (Scenario.submit (str "General") Scenario.reply_c)
           Scenario.one_exchange); reflexivity.
Defined.

(** X11: over any sequence of runs, [message_count] stays the number of
    user messages in the history, if it was so at the start (as it is in the
    initial session). *)
Theorem counter_counts_user_messages (runs : list (environment * widgets))
        (s : session_state) :
  message_count s = Z.of_nat (Shape.user_turns (messages s)) ->
  message_count (Shape.run_pages runs s) =
    Z.of_nat (Shape.user_turns (messages (Shape.run_pages runs s))).
Proof.
  revert s. induction runs as [|[env w] runs IH]; intros s Hs; [exact Hs|].
  apply IH, counter_step, Hs.
Qed.

Lemma counter_counts_user_messages_busy_session :
  message_count (Shape.run_pages Cases.busy_session initial_session) =
    Z.of_nat (Shape.user_turns
                (messages (Shape.run_pages Cases.busy_session initial_session))).
Proof.
  apply (counter_counts_user_messages Cases.busy_session initial_session).
  reflexivity.
Defined.

(** X12: over any sequence of runs, the history stays a sequence of
    exchanges (a user message alone, or a user message and the reply to it),
    so it never holds a system message, and every reply in it stands directly
    behind a user message. *)
Theorem history_is_made_of_exchanges (runs : list (environment * widgets))
        (s : session_state) :
  Shape.exchanges (messages s) ->
  Shape.exchanges (messages (Shape.run_pages runs s))
  /\ Forall (fun m => role m <> System) (messages (Shape.run_pages runs s))
  /\ forall before output behind,
       messages (Shape.run_pages runs s) =
         before ++ {| role := Assistant; content := output |} :: behind ->
       exists earlier user_input,
         before = earlier ++ [ {| role := User; content := user_input |} ].
Proof.
  intros Hs.
  assert (H : Shape.exchanges (messages (Shape.run_pages runs s))).
  { revert s Hs. induction runs as [|[env w] runs IH]; intros s Hs; [exact Hs|].
    apply IH, exchanges_step, Hs. }
  split; [exact H|]. apply exchanges_shape, H.
Qed.

Lemma history_is_made_of_exchanges_busy_session :
  Shape.exchanges (messages (Shape.run_pages Cases.busy_session initial_session))
  /\ Forall (fun m => role m <> System)
            (messages (Shape.run_pages Cases.busy_session initial_session))
  /\ forall before output behind,
       messages (Shape.run_pages Cases.busy_session initial_session) =
         before ++ {| role := Assistant; content := output |} :: behind ->
       exists earlier user_input,
         before = earlier ++ [ {| role := User; content := user_input |} ].
Proof.
  apply (history_is_made_of_exchanges Cases.busy_session initial_session).
  constructor.
Defined.

(** X13: the input box is reached exactly in the runs in which no button is
    pressed and a client exists; such a run first draws the whole stored
    history, message by message in order, and then the input box. *)
Theorem input_box_needs_client_and_no_button (env : environment) (w : widgets)
        (s : session_state) :
  (ChatInput ∈ Shape.run_events env w s <->
   clear_history_clicked w = false
   /\ new_session_clicked w = false
   /\ initialize_llm env <> None)
  /\ (ChatInput ∈ Shape.run_events env w s ->
      exists rest,
        Shape.run_events env w s =
          Spec.transcript (messages s) ++ ChatInput :: rest
        /\ (ChatInput ∉ rest)).
Proof.
  unfold Shape.run_events.
  destruct (run_page_result env w s [])
    as [Hpressed|Hclear Hnew Hllm|llm Hclear Hnew Hllm Hinput
        |llm user_input p e Hclear Hnew Hllm Hinput Htext Hp Hinvoke
        |llm user_input p output main_content score_content
           Hclear Hnew Hllm Hinput Htext Hp Hinvoke Hparse];
    cbn [fst snd app].
  - split; [split|]; try (intros Hin; now apply not_elem_of_nil in Hin).
    intros (Hclear & Hnew & _). destruct Hpressed; congruence.
  - assert (Hno : ChatInput ∉ [Error CONFIGURATION_ERROR; Info SETUP_INSTRUCTIONS]).
    { intros Hin. apply list_elem_of_In in Hin. simpl in Hin.
      destruct Hin as [Hin|[Hin|[]]]; discriminate Hin. }
    split; [split|]; try (intros Hin; now apply Hno in Hin).
    intros (_ & _ & Hclient). congruence.
  - split; [split|].
    + intros _. rewrite Hllm. auto.
    + intros _. apply elem_of_app. right. apply list_elem_of_here.
    + intros _. exists []. split; [reflexivity|apply not_elem_of_nil].
  - split; [split|].
    + intros _. rewrite Hllm. auto.
    + intros _. apply elem_of_app. right. apply list_elem_of_here.
    + intros _. eexists. split; [reflexivity|].
      intros Hin. apply list_elem_of_In in Hin. simpl in Hin.
      repeat destruct Hin as [Hin|Hin]; try discriminate Hin. exact Hin.
  - split; [split|].
    + intros _. rewrite Hllm. auto.
    + intros _. apply elem_of_app. right. apply list_elem_of_here.
    + intros _. eexists. split; [reflexivity|].
      intros Hin. apply list_elem_of_In in Hin.
      destruct (truthy score_content); simpl in Hin;
        repeat destruct Hin as [Hin|Hin]; try discriminate Hin; exact Hin.
Qed.

Lemma input_box_needs_client_and_no_button_second_question :
  exists rest,
    Shape.run_events Scenario.env_with_key
      (Scenario.submit (str "General") Scenario.reply_c) Scenario.one_exchange =
      Spec.transcript (messages Scenario.one_exchange) ++ ChatInput :: rest
    /\ (ChatInput ∉ rest).
Proof.
  apply (input_box_needs_client_and_no_button Scenario.env_with_key
           (Scenario.submit (str "General") Scenario.reply_c) Scenario.one_exchange).
  apply (input_box_needs_client_and_no_button Scenario.env_with_key
           (Scenario.submit (str "General") Scenario.reply_c) Scenario.one_exchange).
  split; [reflexivity|]. split; [reflexivity|]. discriminate.
Defined.

(** X14: a run with a client in which nothing is submitted, or the empty
    string, draws the history and the input box and does nothing else:
    history and counter stay as they are and the model is not called. *)
Theorem empty_submission_is_ignored (env : environment) (llm : ChatModel)
        (w : widgets) (s : session_state) :
  clear_history_clicked w = false ->
  new_session_clicked w = false ->
  initialize_llm env = Some llm ->
  chat_input w = None \/ chat_input w = Some [] ->
  run_page env w (s, []) =
    (Done tt,
     (set_interview_type (selectbox w) s,
      Spec.transcript (messages s) ++ [ChatInput]))
  /\ messages (Shape.next_session env w s) = messages s
  /\ message_count (Shape.next_session env w s) = message_count s
  /\ Spec.invocations (Shape.run_events env w s) = [].
Proof.
  intros Hclear Hnew Hllm Hinput.
  unfold Shape.next_session, Shape.run_events.
  rewrite (run_page_idle env llm w s [] Hllm Hclear Hnew Hinput).
  cbn [fst snd app messages message_count set_interview_type].
  repeat split. now rewrite invocations_app, invocations_transcript.
Qed.

Lemma empty_submission_is_ignored_after_exchange :
  run_page Scenario.env_with_key (Cases.empty_submission (str "Frontend"))
    (Scenario.one_exchange, []) =
    (Done tt,
     (set_interview_type (str "Frontend") Scenario.one_exchange,
      Spec.transcript (messages Scenario.one_exchange) ++ [ChatInput]))
  /\ messages (Shape.next_session Scenario.env_with_key
                 (Cases.empty_submission (str "Frontend")) Scenario.one_exchange)
       = messages Scenario.one_exchange
  /\ message_count (Shape.next_session Scenario.env_with_key
                      (Cases.empty_submission (str "Frontend")) Scenario.one_exchange)
       = message_count Scenario.one_exchange
  /\ Spec.invocations (Shape.run_events Scenario.env_with_key
                         (Cases.empty_submission (str "Frontend"))
                         Scenario.one_exchange) = [].
Proof.
  apply (empty_submission_is_ignored Scenario.env_with_key
           (Scenario.answering Scenario.reply_b)
           (Cases.empty_submission (str "Frontend")) Scenario.one_exchange);
    try reflexivity.
  right. reflexivity.
Defined.

(** X15: the run after a pressed button starts from nothing: its request
    holds the system prompt alone, and the history it leaves begins with the
    text submitted in it, with the counter at one. *)
Theorem reset_forgets_history (env1 env2 : environment) (w1 w2 : widgets)
        (llm : ChatModel) (user_input : pystr) (s : session_state) :
  clear_history_clicked w1 = true \/ new_session_clicked w1 = true ->
  clear_history_clicked w2 = false ->
  new_session_clicked w2 = false ->
  initialize_llm env2 = Some llm ->
  chat_input w2 = Some user_input ->
  user_input <> [] ->
  exists p,
    get_system_prompt (selectbox w2) = Ok p
    /\ Spec.invocations
         (Shape.run_events env2 w2 (Shape.next_session env1 w1 s)) =
         [ [ {| role := System; content := p |} ] ]
    /\ (messages (Shape.next_session env2 w2 (Shape.next_session env1 w1 s)) =
          [ {| role := User; content := user_input |} ]
        \/ exists output,
             messages (Shape.next_session env2 w2 (Shape.next_session env1 w1 s)) =
               [ {| role := User; content := user_input |};
                 {| role := Assistant; content := output |} ])
    /\ message_count (Shape.next_session env2 w2 (Shape.next_session env1 w1 s)) = 1%Z.
Proof.
  intros Hpressed Hclear Hnew Hllm Hinput Htext.
  unfold Shape.run_events, Shape.next_session.
  rewrite (run_page_reset env1 w1 s [] Hpressed). cbn [fst snd].
  set (fresh := {| messages := []; interview_type := selectbox w1; message_count := 0 |}).
  destruct (get_system_prompt_total (selectbox w2)) as (general & _ & Hp).
  set (p := PyDict.get INTERVIEW_PROMPTS (selectbox w2) general) in Hp.
  exists p. split; [exact Hp|].
  destruct (invoke llm ({| role := System; content := p |} :: messages fresh))
    as [output|e] eqn:Hinvoke.
  - destruct (parse_total output) as (main_content & score_content & Hparse).
    rewrite (run_page_answered_turn env2 llm w2 user_input p output main_content
               score_content fresh [] Hllm Hclear Hnew Hinput Htext Hp Hinvoke Hparse).
    cbn [fst snd app messages message_count append_user append_assistant
         set_interview_type fresh Spec.transcript map concat].
    split; [destruct (truthy score_content); reflexivity|]. split; [|reflexivity].
    right. exists output. reflexivity.
  - rewrite (run_page_failed_turn env2 llm w2 user_input p e fresh []
               Hllm Hclear Hnew Hinput Htext Hp Hinvoke).
    cbn [fst snd app messages message_count append_user set_interview_type fresh
         Spec.transcript map concat].
    split; [reflexivity|]. split; [|reflexivity]. now left.
Qed.

Lemma reset_forgets_history_after_exchange :
  exists p,
    get_system_prompt (str "General") = Ok p
    /\ Spec.invocations
         (Shape.run_events Scenario.env_with_key
            (Scenario.submit (str "General") Scenario.reply_c)
            (Shape.next_session Scenario.env_with_key
               (Cases.press_new_while_typing (str "Backend") Scenario.question_a)
               Scenario.one_exchange)) =
         [ [ {| role := System; content := p |} ] ].
Proof.
  destruct (reset_forgets_history Scenario.env_with_key Scenario.env_with_key
              (Cases.press_new_while_typing (str "Backend") Scenario.question_a)
              (Scenario.submit (str "General") Scenario.reply_c)
              (Scenario.answering Scenario.reply_b) Scenario.reply_c
              Scenario.one_exchange)
    as (p & Hp & Hcalls & _); try reflexivity.
  - right. reflexivity.
  - discriminate.
  - exists p. split; [exact Hp|exact Hcalls].
Defined.

(** X16: a user message whose call failed stays in the history, so the next
    submission sends it along: the request of the next turn ends with the
    text of the failed turn, and the text submitted now is not in it. *)
Theorem failed_question_goes_with_the_next
        (env1 env2 : environment) (w1 w2 : widgets) (llm1 llm2 : ChatModel)
        (first second p1 : pystr) (e : exn) (s : session_state) :
  clear_history_clicked w1 = false -> new_session_clicked w1 = false ->
  initialize_llm env1 = Some llm1 ->
  chat_input w1 = Some first -> first <> [] ->
  get_system_prompt (selectbox w1) = Ok p1 ->
  invoke llm1 ({| role := System; content := p1 |} :: messages s) = Raise e ->
  clear_history_clicked w2 = false -> new_session_clicked w2 = false ->
  initialize_llm env2 = Some llm2 ->
  chat_input w2 = Some second -> second <> [] ->
  exists p2,
    get_system_prompt (selectbox w2) = Ok p2
    /\ Spec.invocations
         (Shape.run_events env2 w2 (Shape.next_session env1 w1 s)) =
         [ {| role := System; content := p2 |}
             :: messages s ++ [ {| role := User; content := first |} ] ].
Proof.
  intros Hclear1 Hnew1 Hllm1 Hinput1 Htext1 Hp1 Hinvoke1
         Hclear2 Hnew2 Hllm2 Hinput2 Htext2.
  assert (Hnext : Shape.next_session env1 w1 s =
                  append_user first (set_interview_type (selectbox w1) s)).
  { unfold Shape.next_session.
    now rewrite (run_page_failed_turn env1 llm1 w1 first p1 e s []
                   Hllm1 Hclear1 Hnew1 Hinput1 Htext1 Hp1 Hinvoke1). }
  rewrite Hnext.
  destruct (run_calls_after_submission env2 llm2 w2 second
              (append_user first (set_interview_type (selectbox w1) s))
              Hclear2 Hnew2 Hllm2 Hinput2 Htext2) as (p2 & Hp2 & Hcalls).
  exists p2. split; [exact Hp2|exact Hcalls].
Qed.

Lemma failed_question_goes_with_the_next_moody :
  exists p2,
    get_system_prompt (str "Frontend") = Ok p2
    /\ Spec.invocations
         (Shape.run_events Cases.env_moody
            (Scenario.submit (str "Frontend") Scenario.reply_c)
            (Shape.next_session Cases.env_moody
               (Scenario.submit (str "Backend") Scenario.question_a)
               initial_session)) =
         [ [ {| role := System; content := p2 |};
             {| role := User; content := Scenario.question_a |} ] ].
Proof.
  apply (failed_question_goes_with_the_next Cases.env_moody Cases.env_moody
           (Scenario.submit (str "Backend") Scenario.question_a)
           (Scenario.submit (str "Frontend") Scenario.reply_c)
           Cases.moody Cases.moody Scenario.question_a Scenario.reply_c
           (PyDict.get INTERVIEW_PROMPTS (str "Backend") [])
           (ClientError (str "timeout")) initial_session);
    try reflexivity; discriminate.
Defined.
